(** * m3u8_server_mp4: the two conversion handlers, embedded and verified

    The repository holds two variants of one Express route,
    [POST /api/convert-m3u8]:

    - [src/server.js] runs ffmpeg through [execSync] (blocking);
    - [src/index.js] runs ffmpeg through fluent-ffmpeg and answers from the
      ['error'] / ['end'] callbacks (event driven).

    Both are embedded below as programs of a small state-and-exception monad
    over the observable world of a request: the file system, the response
    object and the chronological trace of effects. *)

From Stdlib Require Import ZArith QArith Qround String Ascii List DecimalString DecimalZ.
From stdpp Require Import gmap strings list fin_maps.

Local Open Scope string_scope.
Local Open Scope list_scope.

#[local] Arguments String.append !_ _ / : simpl nomatch.

(** ** JavaScript values

    The values that reach the handlers: whatever [express.json()] put in
    [req.body.url], console arguments, and the fields of JSON bodies. *)

Inductive js_value : Type :=
| JUndefined
| JNull
| JBool (b : bool)
| JNumber (n : Z)
| JString (s : string)
| JArray
| JObject
| JError (message : string).

(** [!v] is [negb (truthy v)]. *)
Definition truthy (v : js_value) : bool :=
  match v with
  | JUndefined | JNull => false
  | JBool b => b
  | JNumber n => negb (Z.eqb n 0)
  | JString s => negb (String.eqb s "")
  | JArray | JObject | JError _ => true
  end.

Definition typeof (v : js_value) : string :=
  match v with
  | JUndefined => "undefined"
  | JNull => "object"
  | JBool _ => "boolean"
  | JNumber _ => "number"
  | JString _ => "string"
  | JArray | JObject | JError _ => "object"
  end.

(** [s.startsWith(p)] *)
Definition startsWith (s p : string) : bool := String.prefix p s.

(** The guard of both handlers (server.js line 48, index.js line 46):
    [!m3u8Url || typeof m3u8Url !== 'string' || !m3u8Url.startsWith('http')].
    [||] short-circuits, so [startsWith] is only reached on strings. *)
Definition invalid_url (m3u8Url : js_value) : bool :=
  negb (truthy m3u8Url)
  || negb (String.eqb (typeof m3u8Url) "string")
  || match m3u8Url with
     | JString s => negb (startsWith s "http")
     | _ => true
     end.

(** The string a request carries once the guard has let it through. *)
Definition url_text (m3u8Url : js_value) : string :=
  match m3u8Url with
  | JString s => s
  | _ => ""
  end.

(** The validation the specification words: a well-formed absolute URL whose
    scheme is [http] or [https], read as: the text is [http://] or
    [https://] followed by a non-empty remainder. *)
Definition strip_prefix (p s : string) : option string :=
  if String.prefix p s
  then Some (String.substring (String.length p) (String.length s - String.length p)%nat s)
  else None.

Definition spec_absolute_http_url (s : string) : bool :=
  match strip_prefix "http://" s with
  | Some rest => negb (String.eqb rest "")
  | None =>
      match strip_prefix "https://" s with
      | Some rest => negb (String.eqb rest "")
      | None => false
      end
  end.

Definition spec_valid_sourceUrl (v : js_value) : bool :=
  match v with
  | JString s => spec_absolute_http_url s
  | _ => false
  end.

(** ** Numbers in template literals

    [`${Date.now()}`] prints an integer in decimal. *)
Definition string_of_Z (z : Z) : string :=
  NilEmpty.string_of_int (Z.to_int z).

(** ** POSIX [path.join] and [path.basename]

    Node's [path] module, on the level of the segments between slashes. *)

Definition slash : ascii := "/"%char.

Fixpoint has_slash (s : string) : bool :=
  match s with
  | EmptyString => false
  | String c r => Ascii.eqb c slash || has_slash r
  end.

Fixpoint segments (s : string) : list string :=
  match s with
  | EmptyString => [EmptyString]
  | String c r =>
      if Ascii.eqb c slash then EmptyString :: segments r
      else match segments r with
           | h :: t => String c h :: t
           | [] => [String c EmptyString]
           end
  end.

Fixpoint join_slash (l : list string) : string :=
  match l with
  | [] => ""
  | [x] => x
  | x :: r => x +:+ String slash (join_slash r)
  end.

(** One step of [normalizeString]; the stack holds the kept segments, last
    one first. *)
Definition normalize_step (allowAboveRoot : bool) (stack : list string) (seg : string)
  : list string :=
  if String.eqb seg "" || String.eqb seg "." then stack
  else if String.eqb seg ".." then
    match stack with
    | top :: rest =>
        if String.eqb top ".."
        then (if allowAboveRoot then ".." :: stack else stack)
        else rest
    | [] => if allowAboveRoot then [".."] else []
    end
  else seg :: stack.

Definition normalizeString (path : string) (allowAboveRoot : bool) : string :=
  join_slash (rev (fold_left (normalize_step allowAboveRoot) (segments path) [])).

Fixpoint ends_with_slash (s : string) : bool :=
  match s with
  | EmptyString => false
  | String c EmptyString => Ascii.eqb c slash
  | String _ r => ends_with_slash r
  end.

Definition normalize (path : string) : string :=
  if String.eqb path "" then "."
  else
    let isAbsolute := String.prefix "/" path in
    let trailingSeparator := ends_with_slash path in
    let body := normalizeString path (negb isAbsolute) in
    if String.eqb body "" then
      (if isAbsolute then "/" else if trailingSeparator then "./" else ".")
    else
      (if isAbsolute then "/" else "") +:+ body +:+ (if trailingSeparator then "/" else "").

Definition path_join (args : list string) : string :=
  match List.filter (fun a => negb (String.eqb a "")) args with
  | [] => "."
  | parts => normalize (join_slash parts)
  end.

(** [path.basename(p)]: the last non-empty segment. *)
Definition basename (p : string) : string :=
  List.last (List.filter (fun a => negb (String.eqb a "")) (segments p)) "".

(** ** File naming (server.js lines 55-57, index.js lines 52-53) *)

Definition outputFileName (now : Z) : string :=
  "converted_" +:+ string_of_Z now +:+ ".mp4".

(** ** The world of one request

    Effects are recorded in the order they happen. *)

Inductive console_level : Type := ConsoleLog | ConsoleError.

(** What fluent-ffmpeg's builder has been given (index.js lines 59-61, 93). *)
Record FfmpegCommand : Type := mkFfmpegCommand {
  input : string;
  timeout : Z;
  inputOpts : list string;
  outputOpts : list string;
  target : string
}.

Inductive invocation : Type :=
| ShellCommand (command : string)
| FfmpegRun (c : FfmpegCommand).

Inductive effect : Type :=
| Console (level : console_level) (args : list js_value)
| ProcStart (i : invocation)
| ProcExit (ok : bool)
| Unlink (path : string)
| Respond (status : Z) (body : list (string * js_value)).

(** [fs] maps the paths that exist to their contents; [statusCode] and
    [headersSent] are the fields of [res]; [responseSent] is the closure
    variable of index.js line 44. *)
Record State : Type := mkState {
  fs : gmap string string;
  statusCode : Z;
  headersSent : bool;
  responseSent : bool;
  trace : list effect
}.

Definition initial_state (fs0 : gmap string string) : State :=
  mkState fs0 200 false false [].

(** What the handlers do not decide: how the child process ends and what it
    leaves on disk, whether [unlinkSync] fails on an existing path, whether
    setting up the fluent-ffmpeg command throws. *)
Record World : Type := mkWorld {
  exec_result : string -> gmap string string -> option string * gmap string string;
  unlink_error : string -> option string;
  setup_error : FfmpegCommand -> option string
}.

(** ** State and exceptions *)

Inductive completion (A : Type) : Type :=
| Normal (a : A)
| Throws (message : string).
Arguments Normal {A} a.
Arguments Throws {A} message.

Definition Js (A : Type) : Type := State -> completion A * State.

Definition ret {A} (a : A) : Js A := fun st => (Normal a, st).

Definition throw {A} (message : string) : Js A := fun st => (Throws message, st).

Definition bind {A B} (m : Js A) (k : A -> Js B) : Js B :=
  fun st =>
    match m st with
    | (Normal a, st') => k a st'
    | (Throws e, st') => (Throws e, st')
    end.

(** [try { body } catch (e) { handler }] *)
Definition try_catch {A} (body : Js A) (handler : string -> Js A) : Js A :=
  fun st =>
    match body st with
    | (Normal a, st') => (Normal a, st')
    | (Throws e, st') => handler e st'
    end.

Declare Scope js_scope.
Delimit Scope js_scope with js.
Bind Scope js_scope with Js.

Notation "'let!' x ':=' m 'in' k" := (bind m (fun x => k))
  (at level 10, x name, m at level 100, k at level 200) : js_scope.
Notation "m ;; k" := (bind m (fun _ => k)) : js_scope.

Local Open Scope js_scope.

Definition emit (e : effect) : Js unit :=
  fun st =>
    (Normal tt,
     mkState (fs st) (statusCode st) (headersSent st) (responseSent st) (trace st ++ [e])).

Definition console_log (args : list js_value) : Js unit := emit (Console ConsoleLog args).
Definition console_error (args : list js_value) : Js unit := emit (Console ConsoleError args).

Definition set_fs (fs' : gmap string string) : Js unit :=
  fun st =>
    (Normal tt, mkState fs' (statusCode st) (headersSent st) (responseSent st) (trace st)).

(** [res.status(code)] *)
Definition res_status (code : Z) : Js unit :=
  fun st =>
    (Normal tt, mkState (fs st) code (headersSent st) (responseSent st) (trace st)).

(** [res.json(body)]: Express refuses a second response on the same [res]. *)
Definition res_json (body : list (string * js_value)) : Js unit :=
  fun st =>
    if headersSent st then (Throws "ERR_HTTP_HEADERS_SENT", st)
    else
      (Normal tt,
       mkState (fs st) (statusCode st) true (responseSent st)
               (trace st ++ [Respond (statusCode st) body])).

Definition get_headersSent : Js bool := fun st => (Normal (headersSent st), st).

Definition get_responseSent : Js bool := fun st => (Normal (responseSent st), st).

Definition set_responseSent (b : bool) : Js unit :=
  fun st =>
    (Normal tt, mkState (fs st) (statusCode st) (headersSent st) b (trace st)).

(** [fs.existsSync(path)] *)
Definition existsSync (path : string) : Js bool :=
  fun st => (Normal (bool_decide (is_Some (fs st !! path))), st).

(** [fs.unlinkSync(path)]: the call is recorded; it throws on a missing path
    and whenever the world refuses the deletion, and removes the file
    otherwise. *)
Definition unlinkSync (w : World) (path : string) : Js unit :=
  emit (Unlink path) ;;
  fun st =>
    match fs st !! path with
    | None => (Throws "ENOENT: no such file or directory", st)
    | Some _ =>
        match unlink_error w path with
        | Some e => (Throws e, st)
        | None => set_fs (delete path (fs st)) st
        end
    end.

(** [execSync(command)]: starts the child, returns only after it has exited,
    and throws when it failed. *)
Definition execSync (w : World) (command : string) : Js unit :=
  emit (ProcStart (ShellCommand command)) ;;
  fun st =>
    match exec_result w command (fs st) with
    | (None, fs') => (set_fs fs' ;; emit (ProcExit true)) st
    | (Some e, fs') => (set_fs fs' ;; emit (ProcExit false) ;; throw e) st
    end.

(** Reading a finished run. *)
Definition run {A} (m : Js A) (fs0 : gmap string string) : completion A * State :=
  m (initial_state fs0).

Definition is_respond (e : effect) : bool :=
  match e with Respond _ _ => true | _ => false end.

Definition is_unlink (e : effect) : bool :=
  match e with Unlink _ => true | _ => false end.

Definition is_proc_start (e : effect) : bool :=
  match e with ProcStart _ => true | _ => false end.

Definition is_proc_exit (e : effect) : bool :=
  match e with ProcExit _ => true | _ => false end.

Definition responses (tr : list effect) : list effect := List.filter is_respond tr.

(** ** src/server.js: the blocking handler *)

Module Server.

(** line 32; [dirname] is [__dirname] *)
Definition publicDownloadsDir (dirname : string) : string :=
  path_join [dirname; "public"; "downloads"].

(** line 56 *)
Definition outputPath (dirname : string) (now : Z) : string :=
  path_join [publicDownloadsDir dirname; outputFileName now].

(** line 57 *)
Definition publicDownloadUrl (now : Z) : string :=
  "/downloads/" +:+ outputFileName now.

(** The double quote character of the template literal of line 65. *)
Definition dquote : string := String (Ascii.ascii_of_nat 34) EmptyString.

(** line 65 *)
Definition command (m3u8Url outputPath : string) : string :=
  "ffmpeg -y -protocol_whitelist file,http,https,tcp,tls,crypto -i "
  +:+ dquote +:+ m3u8Url +:+ dquote
  +:+ " -bsf:a aac_adtstoasc -c copy "
  +:+ dquote +:+ outputPath +:+ dquote.

(** lines 85-93: the inner [try]/[catch] around the deletion *)
Definition delete_incomplete (w : World) (outputPath : string) : Js unit :=
  try_catch
    (let! present := existsSync outputPath in
     if present then
       unlinkSync w outputPath ;;
       console_log [JString ("[Backend] Deleted incomplete file on error: " +:+ outputPath)]
     else ret tt)
    (fun e =>
       console_error [JString ("[Backend] Error deleting incomplete file: " +:+ e)]).

(** lines 80-100: the [catch] block of the conversion *)
Definition on_exec_error (w : World) (outputPath : string) (error : string) : Js unit :=
  console_error
    [JString ("[Backend] Error executing FFmpeg with execSync: " +:+ error)] ;;
  console_error
    [JString "[Backend] FFmpeg likely failed. Check output above for FFmpeg errors."] ;;
  delete_incomplete w outputPath ;;
  let! sent := get_headersSent in
  if negb sent then
    res_status 500 ;;
    res_json [("success", JBool false);
              ("message",
               JString "FFmpeg conversion failed (execSync). Check backend logs.")]
  else ret tt.

(** lines 44-102: the handler of [POST /api/convert-m3u8]; [now] is what
    [Date.now()] returns. *)
Definition convert_m3u8 (w : World) (dirname : string) (now : Z) (m3u8Url : js_value)
  : Js unit :=
  if invalid_url m3u8Url then
    console_log [JString "[Backend] Invalid M3U8 URL received:"; m3u8Url] ;;
    res_status 400 ;;
    res_json [("success", JBool false);
              ("message", JString "Invalid or missing M3U8 URL in request body")]
  else
    let url := url_text m3u8Url in
    let out := outputPath dirname now in
    console_log [JString ("[Backend] Received request for: " +:+ url)] ;;
    console_log [JString ("[Backend] Output path: " +:+ out)] ;;
    console_log [JString "[Backend] Using execSync (synchronous/blocking)..."] ;;
    console_log [JString ("[Backend] Executing command: " +:+ command url out)] ;;
    try_catch
      (execSync w (command url out) ;;
       console_log [JString ("[Backend] execSync finished successfully for: " +:+ out)] ;;
       res_json [("success", JBool true);
                 ("downloadUrl", JString (publicDownloadUrl now))])
      (on_exec_error w out).

End Server.

(** ** src/index.js: the event-driven handler *)

(** What fluent-ffmpeg reports while the child runs; [percent] is absent when
    the progress object carries none. *)
Inductive ffmpeg_event : Type :=
| EvProgress (percent : option Q)
| EvError (message : string) (stderr : option string)
| EvEnd.

(** What happens after the handler has returned: the child writes bytes of
    the output file, or fluent-ffmpeg emits an event. *)
Inductive tick : Type :=
| Writes (content : string)
| Emits (e : ffmpeg_event).

Module Index.

(** line 36 *)
Definition outputDir : string := "/tmp".

(** line 53 *)
Definition outputPath (now : Z) : string :=
  path_join [outputDir; outputFileName now].

(** lines 59-61: [ffmpeg(m3u8Url, { timeout: 432000 })] and the two option
    calls *)
Definition ffmpeg (source : string) (timeout : Z) : FfmpegCommand :=
  mkFfmpegCommand source timeout [] [] EmptyString.

Definition inputOptions (c : FfmpegCommand) (opts : list string) : FfmpegCommand :=
  mkFfmpegCommand (input c) (timeout c) (inputOpts c ++ opts) (outputOpts c) (target c).

Definition outputOptions (c : FfmpegCommand) (opts : list string) : FfmpegCommand :=
  mkFfmpegCommand (input c) (timeout c) (inputOpts c) (outputOpts c ++ opts) (target c).

(** line 93: [.save(outputPath)] fixes the output and starts the child; the
    call returns without waiting for it. A failure to set the command up
    is thrown before anything is started. *)
Definition save (w : World) (c : FfmpegCommand) (path : string) : Js unit :=
  let c' := mkFfmpegCommand (input c) (timeout c) (inputOpts c) (outputOpts c) path in
  match setup_error w c' with
  | Some e => throw e
  | None => emit (ProcStart (FfmpegRun c'))
  end.

Definition build (m3u8Url : string) : FfmpegCommand :=
  outputOptions
    (inputOptions (ffmpeg m3u8Url 432000)
                  ["-protocol_whitelist"; "file,http,https,tcp,tls,crypto"])
    ["-bsf:a"; "aac_adtstoasc"; "-c"; "copy"].

(** lines 62-66 *)
Definition on_progress (percent : option Q) : Js unit :=
  match percent with
  | Some p =>
      if negb (Qeq_bool p 0) then
        console_log
          [JString ("[FFmpeg] Processing: " +:+ string_of_Z (Qfloor p) +:+ "% done")]
      else ret tt
  | None => ret tt
  end.

(** lines 67-75 *)
Definition on_error (w : World) (outputPath : string)
           (message : string) (stderr : option string) : Js unit :=
  let! sent := get_responseSent in
  if sent then ret tt
  else
    set_responseSent true ;;
    console_error [JString "[Backend] FFmpeg error:"; JString message] ;;
    console_error
      [JString "[Backend] FFmpeg stderr:";
       JString (match stderr with
                | Some s => if String.eqb s EmptyString then "Not available" else s
                | None => "Not available"
                end)] ;;
    try_catch
      (let! present := existsSync outputPath in
       if present then unlinkSync w outputPath else ret tt)
      (fun e => console_error [JString ("Error deleting tmp file: " +:+ e)]) ;;
    res_status 500 ;;
    res_json [("success", JBool false);
              ("message", JString ("FFmpeg conversion failed: " +:+ message))].

(** lines 76-92 *)
Definition on_end (outputPath : string) : Js unit :=
  let! sent := get_responseSent in
  if sent then ret tt
  else
    set_responseSent true ;;
    console_log
      [JString ("[Backend] Conversion finished successfully to tmp path: " +:+ outputPath)] ;;
    console_log
      [JString "[Backend] NOTE: File saved to temporary storage. Needs upload step for download."] ;;
    res_json [("success", JBool true);
              ("message", JString "Conversion successful (file in temporary storage).");
              ("downloadUrl", JNull)].

(** lines 95-101: the [catch] of the set-up *)
Definition on_setup_error (error : string) : Js unit :=
  let! sent := get_responseSent in
  if negb sent then
    set_responseSent true ;;
    console_error [JString "[Backend] Error setting up FFmpeg command:"; JError error] ;;
    res_status 500 ;;
    res_json [("success", JBool false);
              ("message", JString ("Server error setting up conversion: " +:+ error))]
  else ret tt.

(** lines 42-102: the handler of [POST /api/convert-m3u8], up to its
    return. *)
Definition convert_m3u8 (w : World) (now : Z) (m3u8Url : js_value) : Js unit :=
  if invalid_url m3u8Url then
    console_log [JString "[Backend] Invalid M3U8 URL received:"; m3u8Url] ;;
    res_status 400 ;;
    res_json [("success", JBool false);
              ("message", JString "Invalid or missing M3U8 URL")]
  else
    let url := url_text m3u8Url in
    let out := outputPath now in
    console_log [JString ("[Backend] Received request for: " +:+ url)] ;;
    console_log [JString ("[Backend] Temporary output path: " +:+ out)] ;;
    try_catch (save w (build url) out) on_setup_error.

(** The listener that an emitted event reaches. *)
Definition dispatch (w : World) (outputPath : string) (e : ffmpeg_event) : Js unit :=
  match e with
  | EvProgress percent => on_progress percent
  | EvError message stderr => on_error w outputPath message stderr
  | EvEnd => on_end outputPath
  end.

(** The child writes the output file at [outputPath]. *)
Definition child_writes (outputPath content : string) : Js unit :=
  fun st => set_fs (<[outputPath := content]> (fs st)) st.

(** The event loop after the handler has returned. An exception that
    escapes a listener is uncaught and ends the run. *)
Fixpoint event_loop (w : World) (outputPath : string) (ticks : list tick) : Js unit :=
  match ticks with
  | [] => ret tt
  | Writes content :: rest =>
      child_writes outputPath content ;; event_loop w outputPath rest
  | Emits e :: rest =>
      dispatch w outputPath e ;; event_loop w outputPath rest
  end.

(** A whole request: the handler, then (the listeners being registered
    only for an accepted url) the event loop. *)
Definition request (w : World) (now : Z) (m3u8Url : js_value) (ticks : list tick)
  : Js unit :=
  convert_m3u8 w now m3u8Url ;;
  if invalid_url m3u8Url then ret tt
  else event_loop w (outputPath now) ticks.

End Index.

(** ** The shell that [execSync] hands the command to

    [execSync(command)] runs [/bin/sh -c command]. The shell's reading of a
    command line is modelled for the part of its grammar that the command of
    server.js can reach without expansions: words are separated by blanks, a
    double quote opens and closes a quoted stretch that belongs to the word
    around it, and quotes are removed. A character whose meaning goes beyond
    that (a dollar sign, backquote or backslash inside double quotes, any
    character outside them that is neither a letter, a digit nor one of
    [- _ , : . /]) or a quote left open gives [None]: the reading is then
    outside this model. *)

Definition is_dquote (c : ascii) : bool := Ascii.eqb c (Ascii.ascii_of_nat 34).

Definition is_blank (c : ascii) : bool :=
  Ascii.eqb c (Ascii.ascii_of_nat 32) || Ascii.eqb c (Ascii.ascii_of_nat 9).

(** [$], the backquote and the backslash keep a meaning inside double
    quotes. *)
Definition special_in_dquotes (c : ascii) : bool :=
  Ascii.eqb c (Ascii.ascii_of_nat 36) || Ascii.eqb c (Ascii.ascii_of_nat 96)
  || Ascii.eqb c (Ascii.ascii_of_nat 92).

Definition plain_unquoted (c : ascii) : bool :=
  let n := nat_of_ascii c in
  (Nat.leb 48 n && Nat.leb n 57) || (Nat.leb 65 n && Nat.leb n 90)
  || (Nat.leb 97 n && Nat.leb n 122)
  || Ascii.eqb c "-" || Ascii.eqb c "_" || Ascii.eqb c "," || Ascii.eqb c ":"
  || Ascii.eqb c "." || Ascii.eqb c "/".

(** The word under construction with one more character. *)
Definition push (cur : option string) (c : ascii) : string :=
  match cur with
  | Some word => word +:+ String c EmptyString
  | None => String c EmptyString
  end.

Definition close (cur : option string) : list string :=
  match cur with
  | Some word => [word]
  | None => []
  end.

(** [quoted] tells whether a double quote is open, [cur] is the word under
    construction, if any, and [acc] holds the finished words. *)
Fixpoint sh_scan (s : string) (quoted : bool) (cur : option string) (acc : list string)
  : option (list string) :=
  match s with
  | EmptyString => if quoted then None else Some (acc ++ close cur)
  | String c rest =>
      if quoted then
        if is_dquote c then sh_scan rest false cur acc
        else if special_in_dquotes c then None
        else sh_scan rest true (Some (push cur c)) acc
      else if is_dquote c then
        sh_scan rest true (Some (match cur with Some word => word | None => EmptyString end))
                acc
      else if is_blank c then sh_scan rest false None (acc ++ close cur)
      else if plain_unquoted c then sh_scan rest false (Some (push cur c)) acc
      else None
  end.

(** The words (program name first, then its arguments) that the shell makes
    of a command line. *)
Definition sh_words (command : string) : option (list string) :=
  sh_scan command false None [].

(** A text that a pair of double quotes keeps together unchanged. *)
Fixpoint quote_safe (s : string) : bool :=
  match s with
  | EmptyString => true
  | String c rest => negb (is_dquote c) && negb (special_in_dquotes c) && quote_safe rest
  end.

(** ** Vocabulary of the properties *)

(** A segment that [normalizeString] keeps as it is. *)
Definition is_plain (seg : string) : bool :=
  negb (String.eqb seg EmptyString) && negb (has_slash seg)
  && negb (String.eqb seg ".") && negb (String.eqb seg "..").

(** A field of a JSON body. *)
Fixpoint field (key : string) (body : list (string * js_value)) : js_value :=
  match body with
  | [] => JUndefined
  | (k, v) :: rest => if String.eqb k key then v else field key rest
  end.

(** The two terminal outcomes a caller can be told. *)
Definition is_success (e : effect) : bool :=
  match e with
  | Respond status body =>
      Z.eqb status 200
      && match field "success" body with JBool true => true | _ => false end
  | _ => false
  end.

Definition is_failure (e : effect) : bool :=
  match e with
  | Respond status body =>
      Z.eqb status 500
      && match field "success" body with JBool false => true | _ => false end
  | _ => false
  end.

Definition is_rejection (e : effect) : bool :=
  match e with
  | Respond status body =>
      Z.eqb status 400
      && match field "success" body with JBool false => true | _ => false end
  | _ => false
  end.

Definition downloadUrl_of (e : effect) : js_value :=
  match e with
  | Respond _ body => field "downloadUrl" body
  | _ => JUndefined
  end.

Definition unlinks (tr : list effect) : list effect := List.filter is_unlink tr.

Definition starts (tr : list effect) : list effect := List.filter is_proc_start tr.

(** Some response is sent after an exit of the child has been observed. *)
Fixpoint exit_precedes_response (tr : list effect) : bool :=
  match tr with
  | [] => false
  | ProcExit _ :: rest => existsb is_respond rest
  | _ :: rest => exit_precedes_response rest
  end.

(** The first ['error'] or ['end'] among the ticks. *)
Fixpoint first_terminal (ticks : list tick) : option ffmpeg_event :=
  match ticks with
  | [] => None
  | Emits (EvError message stderr) :: _ => Some (EvError message stderr)
  | Emits EvEnd :: _ => Some EvEnd
  | _ :: rest => first_terminal rest
  end.

(** What the child alone makes of the file system. *)
Fixpoint child_fs (outputPath : string) (ticks : list tick) (files : gmap string string)
  : gmap string string :=
  match ticks with
  | [] => files
  | Writes content :: rest => child_fs outputPath rest (<[outputPath := content]> files)
  | Emits _ :: rest => child_fs outputPath rest files
  end.

(** The same world, with deletions that never fail. *)
Definition with_unlink_ok (w : World) : World :=
  mkWorld (exec_result w) (fun _ => None) (setup_error w).

(** What the best-effort deletion of the handlers leaves on disk: the file
    goes when it was there and [unlinkSync] did not fail. *)
Definition after_cleanup (w : World) (outputPath : string) (files : gmap string string)
  : gmap string string :=
  match files !! outputPath, unlink_error w outputPath with
  | Some _, None => delete outputPath files
  | _, _ => files
  end.

(** The effects of the deletion attempt of server.js lines 86-93. *)
Definition server_cleanup_effects (w : World) (outputPath : string)
           (files : gmap string string) : list effect :=
  match files !! outputPath with
  | None => []
  | Some _ =>
      [Unlink outputPath;
       match unlink_error w outputPath with
       | Some e =>
           Console ConsoleError
             [JString ("[Backend] Error deleting incomplete file: " +:+ e)]
       | None =>
           Console ConsoleLog
             [JString ("[Backend] Deleted incomplete file on error: " +:+ outputPath)]
       end]
  end.

(** The effects of the deletion attempt of index.js line 73. *)
Definition index_cleanup_effects (w : World) (outputPath : string)
           (files : gmap string string) : list effect :=
  match files !! outputPath with
  | None => []
  | Some _ =>
      Unlink outputPath
      :: match unlink_error w outputPath with
         | Some e => [Console ConsoleError [JString ("Error deleting tmp file: " +:+ e)]]
         | None => []
         end
  end.

(** The lines a handler logs before it starts the child. *)
Definition server_prelude (url out : string) : list effect :=
  [Console ConsoleLog [JString ("[Backend] Received request for: " +:+ url)];
   Console ConsoleLog [JString ("[Backend] Output path: " +:+ out)];
   Console ConsoleLog [JString "[Backend] Using execSync (synchronous/blocking)..."];
   Console ConsoleLog
     [JString ("[Backend] Executing command: " +:+ Server.command url out)]].

Definition index_prelude (url out : string) : list effect :=
  [Console ConsoleLog [JString ("[Backend] Received request for: " +:+ url)];
   Console ConsoleLog [JString ("[Backend] Temporary output path: " +:+ out)]].

(** The two responses of the conversion in each variant. *)
Definition server_success_response (now : Z) : effect :=
  Respond 200 [("success", JBool true);
               ("downloadUrl", JString (Server.publicDownloadUrl now))].

Definition server_failure_response : effect :=
  Respond 500 [("success", JBool false);
               ("message",
                JString "FFmpeg conversion failed (execSync). Check backend logs.")].

Definition index_success_response : effect :=
  Respond 200 [("success", JBool true);
               ("message", JString "Conversion successful (file in temporary storage).");
               ("downloadUrl", JNull)].

Definition index_failure_response (message : string) : effect :=
  Respond 500 [("success", JBool false);
               ("message", JString ("FFmpeg conversion failed: " +:+ message))].

Definition index_setup_failure_response (error : string) : effect :=
  Respond 500 [("success", JBool false);
               ("message", JString ("Server error setting up conversion: " +:+ error))].

(** The console lines of the ['progress'] listener. *)
Definition progress_log (percent : option Q) : list effect :=
  match percent with
  | Some p =>
      if negb (Qeq_bool p 0) then
        [Console ConsoleLog
           [JString ("[FFmpeg] Processing: " +:+ string_of_Z (Qfloor p) +:+ "% done")]]
      else []
  | None => []
  end.

Fixpoint progress_logs (ticks : list tick) : list effect :=
  match ticks with
  | [] => []
  | Emits (EvProgress percent) :: rest => progress_log percent ++ progress_logs rest
  | _ :: rest => progress_logs rest
  end.

(** The ticks before and after the first ['error'] or ['end']. *)
Fixpoint before_terminal (ticks : list tick) : list tick :=
  match ticks with
  | [] => []
  | Emits (EvError _ _) :: _ => []
  | Emits EvEnd :: _ => []
  | t :: rest => t :: before_terminal rest
  end.

Fixpoint after_terminal (ticks : list tick) : list tick :=
  match ticks with
  | [] => []
  | Emits (EvError _ _) :: rest => rest
  | Emits EvEnd :: rest => rest
  | _ :: rest => after_terminal rest
  end.

(** The command that index.js hands to fluent-ffmpeg. *)
Definition index_command (url out : string) : FfmpegCommand :=
  mkFfmpegCommand url 432000
    ["-protocol_whitelist"; "file,http,https,tcp,tls,crypto"]
    ["-bsf:a"; "aac_adtstoasc"; "-c"; "copy"]
    out.

Definition index_end_effects (out : string) : list effect :=
  [Console ConsoleLog
     [JString ("[Backend] Conversion finished successfully to tmp path: " +:+ out)];
   Console ConsoleLog
     [JString "[Backend] NOTE: File saved to temporary storage. Needs upload step for download."];
   index_success_response].

Definition index_error_logs (message : string) (stderr : option string) : list effect :=
  [Console ConsoleError [JString "[Backend] FFmpeg error:"; JString message];
   Console ConsoleError
     [JString "[Backend] FFmpeg stderr:";
      JString (match stderr with
               | Some s => if String.eqb s EmptyString then "Not available" else s
               | None => "Not available"
               end)]].

(** ** Example inputs *)

(** A world for the examples: the child leaves [content] at [path], fails
    when [failure] is given, and [unlinkSync] fails when [refusal] is
    given. *)
Definition example_world (path content : string) (failure refusal : option string) : World :=
  mkWorld (fun _ files => (failure, <[path := content]> files))
          (fun _ => refusal)
          (fun _ => None).

Definition example_url : js_value := JString "http://example.com/stream.m3u8".
Definition example_now : Z := 1700000000000.
Definition example_dirname : string := "/srv/app".
Definition example_server_path : string :=
  "/srv/app/public/downloads/converted_1700000000000.mp4".
Definition example_index_path : string := "/tmp/converted_1700000000000.mp4".

(** An accepted url that holds double quotes. *)
Definition example_quote_url : string :=
  "http://x" +:+ Server.dquote +:+ " -version " +:+ Server.dquote.

(** ** Vocabulary of the further properties *)

(** A stack of [normalizeString] that needs no further normalization: every
    kept segment is a name or [..], and a [..] has only [..] beneath it (and
    only when the path may climb above its root). *)
Fixpoint clean (above : bool) (stack : list string) : bool :=
  match stack with
  | [] => true
  | top :: rest =>
      negb (String.eqb top EmptyString) && negb (String.eqb top ".")
      && negb (has_slash top)
      && (if String.eqb top ".." then above && forallb (String.eqb "..") rest else true)
      && clean above rest
  end.

Definition is_progress_tick (t : tick) : bool :=
  match t with
  | Emits (EvProgress _) => true
  | _ => false
  end.

(** The ticks without the ['progress'] events. *)
Definition without_progress (ticks : list tick) : list tick :=
  List.filter (fun t => negb (is_progress_tick t)) ticks.

Definition is_console (e : effect) : bool :=
  match e with Console _ _ => true | _ => false end.

(** The effects other than console output. *)
Definition beyond_console (tr : list effect) : list effect :=
  List.filter (fun e => negb (is_console e)) tr.

(** The state in which a request to index.js with an accepted url ends, read
    off the set-up outcome and the first ['error'] or ['end']. *)
Definition index_final (w : World) (now : Z) (m3u8Url : js_value)
           (fs0 : gmap string string) (ticks : list tick) : State :=
  let url := url_text m3u8Url in
  let out := Index.outputPath now in
  let started := index_prelude url out ++ [ProcStart (FfmpegRun (index_command url out))] in
  match setup_error w (index_command url out), first_terminal ticks with
  | Some error, _ =>
      mkState (child_fs out ticks fs0) 500 true true
        (index_prelude url out
         ++ [Console ConsoleError
               [JString "[Backend] Error setting up FFmpeg command:"; JError error];
             index_setup_failure_response error]
         ++ progress_logs ticks)
  | None, Some (EvError message stderr) =>
      mkState
        (child_fs out (after_terminal ticks)
           (after_cleanup w out (child_fs out (before_terminal ticks) fs0)))
        500 true true
        (started
         ++ progress_logs (before_terminal ticks)
         ++ index_error_logs message stderr
         ++ index_cleanup_effects w out (child_fs out (before_terminal ticks) fs0)
         ++ [index_failure_response message]
         ++ progress_logs (after_terminal ticks))
  | None, Some EvEnd =>
      mkState (child_fs out ticks fs0) 200 true true
        (started
         ++ progress_logs (before_terminal ticks)
         ++ index_end_effects out
         ++ progress_logs (after_terminal ticks))
  | None, _ =>
      mkState (child_fs out ticks fs0) 200 false false (started ++ progress_logs ticks)
  end.

(** The state in which a request to server.js with an accepted url ends. *)
Definition server_final (w : World) (dirname : string) (now : Z) (m3u8Url : js_value)
           (fs0 : gmap string string) : State :=
  let url := url_text m3u8Url in
  let out := Server.outputPath dirname now in
  match exec_result w (Server.command url out) fs0 with
  | (None, fs1) =>
      mkState fs1 200 true false
        (server_prelude url out
         ++ [ProcStart (ShellCommand (Server.command url out)); ProcExit true;
             Console ConsoleLog
               [JString ("[Backend] execSync finished successfully for: " +:+ out)];
             server_success_response now])
  | (Some error, fs1) =>
      mkState (after_cleanup w out fs1) 500 true false
        (server_prelude url out
         ++ [ProcStart (ShellCommand (Server.command url out)); ProcExit false;
             Console ConsoleError
               [JString ("[Backend] Error executing FFmpeg with execSync: " +:+ error)];
             Console ConsoleError
               [JString "[Backend] FFmpeg likely failed. Check output above for FFmpeg errors."]]
         ++ server_cleanup_effects w out fs1
         ++ [server_failure_response])
  end.

(** * Properties *)

(** ** Strings and paths *)

Section Strings.

Lemma append_nil_r (s : string) : s +:+ EmptyString = s.
Proof. induction s as [|c s IH]; simpl; [reflexivity | now rewrite IH]. Qed.

Lemma append_assoc (a b c : string) : (a +:+ b) +:+ c = a +:+ (b +:+ c).
Proof. induction a as [|x a IH]; simpl; [reflexivity | now rewrite IH]. Qed.

Lemma append_eq_nil (a b : string) : a +:+ b = EmptyString -> b = EmptyString.
Proof. destruct a; simpl; [auto | discriminate]. Qed.

Lemma length_append (a b : string) :
  String.length (a +:+ b) = (String.length a + String.length b)%nat.
Proof. induction a as [|x a IH]; simpl; [reflexivity | now rewrite IH]. Qed.

Lemma append_inj_r (a b c : string) : a +:+ c = b +:+ c -> a = b.
Proof.
  revert b. induction a as [|x a IH]; intros [|y b] H; simpl in H.
  - reflexivity.
  - apply (f_equal String.length) in H. simpl in H.
    rewrite length_append in H. lia.
  - apply (f_equal String.length) in H. simpl in H.
    rewrite length_append in H. lia.
  - injection H as -> H. f_equal. now apply IH.
Qed.

Lemma has_slash_append (a b : string) :
  has_slash (a +:+ b) = has_slash a || has_slash b.
Proof.
  induction a as [|x a IH]; simpl; [reflexivity |].
  now rewrite IH, orb_assoc.
Qed.

Lemma segments_not_nil (s : string) : segments s <> [].
Proof.
  induction s as [|c s IH]; simpl; [discriminate |].
  destruct (Ascii.eqb c slash); [discriminate |].
  destruct (segments s); discriminate.
Qed.

Lemma segments_no_slash (s : string) : has_slash s = false -> segments s = [s].
Proof.
  induction s as [|c s IH]; simpl; [reflexivity |].
  intros H. apply orb_false_iff in H as [Hc Hs].
  rewrite Hc, (IH Hs). reflexivity.
Qed.

(** Splitting distributes over a slash. *)
Lemma segments_app_slash (a b : string) :
  segments (a +:+ String slash b) = segments a ++ segments b.
Proof.
  induction a as [|c a IH]; simpl; [reflexivity |].
  destruct (Ascii.eqb c slash); simpl.
  - now rewrite IH.
  - rewrite IH. pose proof (segments_not_nil a) as Hne.
    destruct (segments a) as [|h t]; [congruence | reflexivity].
Qed.

Lemma ends_with_slash_no_slash (s : string) :
  has_slash s = false -> ends_with_slash s = false.
Proof.
  induction s as [|c s IH]; simpl; [reflexivity |].
  intros H. apply orb_false_iff in H as [Hc Hs].
  destruct s; [exact Hc | exact (IH Hs)].
Qed.

Lemma ends_with_slash_append (a b : string) :
  b <> EmptyString -> ends_with_slash (a +:+ b) = ends_with_slash b.
Proof.
  intros Hb. induction a as [|c a IH]; simpl; [reflexivity |].
  destruct (a +:+ b) eqn:E; [| exact IH].
  apply append_eq_nil in E. contradiction.
Qed.

Lemma join_slash_snoc (l : list string) (x : string) :
  join_slash (l ++ [x]) =
  match l with
  | [] => x
  | _ => join_slash l +:+ String slash x
  end.
Proof.
  induction l as [|y l IH]; [reflexivity |].
  destruct l as [|z l]; [reflexivity |].
  change (join_slash ((y :: z :: l) ++ [x]))
    with (y +:+ String slash (join_slash ((z :: l) ++ [x]))).
  rewrite IH.
  change (join_slash (y :: z :: l)) with (y +:+ String slash (join_slash (z :: l))).
  rewrite append_assoc. reflexivity.
Qed.

(** Decimal numerals hold digits only. *)
Lemma has_slash_string_of_uint (d : Decimal.uint) :
  has_slash (NilEmpty.string_of_uint d) = false.
Proof. induction d; simpl; auto. Qed.

Lemma has_slash_string_of_Z (z : Z) : has_slash (string_of_Z z) = false.
Proof.
  unfold string_of_Z. destruct (Z.to_int z) as [d|d]; simpl;
    apply has_slash_string_of_uint.
Qed.

Lemma string_of_Z_inj (a b : Z) : string_of_Z a = string_of_Z b -> a = b.
Proof.
  unfold string_of_Z. intros H.
  assert (Hi : Z.to_int a = Z.to_int b).
  { pose proof (NilEmpty.isi (Z.to_int a)) as Ha.
    pose proof (NilEmpty.isi (Z.to_int b)) as Hb.
    rewrite H in Ha. congruence. }
  rewrite <- (DecimalZ.of_to a), <- (DecimalZ.of_to b). now rewrite Hi.
Qed.

End Strings.

Section Paths.

Variable file : string.
Hypothesis file_plain : is_plain file = true.

Lemma plain_facts :
  String.eqb file EmptyString = false /\ has_slash file = false
  /\ String.eqb file "." = false /\ String.eqb file ".." = false.
Proof.
  unfold is_plain in file_plain.
  apply andb_true_iff in file_plain as [H123 H4].
  apply andb_true_iff in H123 as [H12 H3].
  apply andb_true_iff in H12 as [H1 H2].
  repeat split; now apply negb_true_iff.
Qed.

Lemma plain_not_nil : file <> EmptyString.
Proof. apply String.eqb_neq, plain_facts. Qed.

Lemma normalize_step_plain (above : bool) (stack : list string) :
  normalize_step above stack file = file :: stack.
Proof.
  destruct plain_facts as (H1 & _ & H3 & H4).
  unfold normalize_step. now rewrite H1, H3, H4.
Qed.

Lemma basename_plain : basename file = file.
Proof.
  destruct plain_facts as (H1 & H2 & _).
  unfold basename. rewrite (segments_no_slash _ H2). simpl.
  now rewrite H1.
Qed.

Lemma basename_slash_plain (x : string) : basename (x +:+ String slash file) = file.
Proof.
  destruct plain_facts as (H1 & H2 & _).
  unfold basename. rewrite segments_app_slash, (segments_no_slash _ H2).
  rewrite List.filter_app. simpl. rewrite H1. simpl.
  apply List.last_last.
Qed.

Lemma normalizeString_last_segment (p : string) (xs : list string) (above : bool) :
  segments p = xs ++ [file] ->
  normalizeString p above = file
  \/ exists x, normalizeString p above = x +:+ String slash file.
Proof.
  intros Hseg. unfold normalizeString. rewrite Hseg, fold_left_app.
  simpl. rewrite normalize_step_plain. simpl. rewrite join_slash_snoc.
  destruct (rev _) as [|k kept]; [now left | right; eauto].
Qed.

(** A path whose last segment is [file] normalizes to a path whose last
    segment is [file]. *)
Lemma normalize_last_segment (p : string) (xs : list string) :
  segments p = xs ++ [file] ->
  ends_with_slash p = false ->
  normalize p = file \/ exists x, normalize p = x +:+ String slash file.
Proof.
  intros Hseg Hend.
  assert (Hp : String.eqb p EmptyString = false).
  { apply String.eqb_neq. intros ->. simpl in Hseg.
    destruct xs as [|? [|? ?]]; simpl in Hseg; try discriminate.
    injection Hseg as Hf. symmetry in Hf. now apply plain_not_nil. }
  destruct plain_facts as (H1 & _).
  unfold normalize. rewrite Hp, Hend.
  destruct (normalizeString_last_segment p xs (negb (String.prefix "/" p)) Hseg)
    as [->|[x ->]].
  - rewrite H1, append_nil_r.
    destruct (String.prefix "/" p); [right; exists EmptyString | left]; reflexivity.
  - destruct (String.eqb_spec (x +:+ String slash file) EmptyString) as [E|_].
    + apply append_eq_nil in E. discriminate.
    + right. rewrite append_nil_r.
      exists ((if String.prefix "/" p then "/" else EmptyString) +:+ x).
      now rewrite append_assoc.
Qed.

Lemma path_join_last_segment (dir : string) :
  path_join [dir; file] = file
  \/ exists x, path_join [dir; file] = x +:+ String slash file.
Proof.
  destruct plain_facts as (H1 & H2 & _).
  unfold path_join. simpl List.filter. rewrite H1. simpl negb.
  destruct (String.eqb_spec dir EmptyString) as [->|Hd]; simpl negb; cbv iota.
  - apply (normalize_last_segment file []).
    + now rewrite (segments_no_slash _ H2).
    + now apply ends_with_slash_no_slash.
  - change (join_slash [dir; file]) with (dir +:+ String slash file).
    apply (normalize_last_segment _ (segments dir)).
    + now rewrite segments_app_slash, (segments_no_slash _ H2).
    + rewrite ends_with_slash_append by discriminate.
      pose proof plain_not_nil as Hne.
      destruct file as [|c f] eqn:Ef; [congruence |].
      change (ends_with_slash (String slash (String c f)))
        with (ends_with_slash (String c f)).
      apply ends_with_slash_no_slash. exact H2.
Qed.

(** [path.basename(path.join(dir, file))] is [file]. *)
Lemma basename_path_join (dir : string) : basename (path_join [dir; file]) = file.
Proof.
  destruct (path_join_last_segment dir) as [->|[x ->]].
  - apply basename_plain.
  - apply basename_slash_plain.
Qed.

End Paths.

Lemma outputFileName_plain (now : Z) : is_plain (outputFileName now) = true.
Proof.
  unfold is_plain, outputFileName.
  rewrite !has_slash_append, has_slash_string_of_Z. reflexivity.
Qed.

Lemma outputFileName_inj (a b : Z) : outputFileName a = outputFileName b -> a = b.
Proof.
  unfold outputFileName. intros H.
  apply (inj (String.append "converted_")) in H.
  apply append_inj_r in H. now apply string_of_Z_inj.
Qed.

(** ** Validation of the submitted url *)

Lemma prefix_append_l (a b s : string) :
  String.prefix (a +:+ b) s = true -> String.prefix a s = true.
Proof.
  revert s. induction a as [|x a IH]; intros s H.
  - now destruct s.
  - destruct s as [|y s]; simpl in *; [discriminate |].
    destruct (ascii_dec x y); [now apply IH | discriminate].
Qed.

Lemma spec_absolute_http_url_prefix (s : string) :
  spec_absolute_http_url s = true -> startsWith s "http" = true.
Proof.
  unfold spec_absolute_http_url, strip_prefix, startsWith.
  destruct (String.prefix "http://" s) eqn:E1.
  - intros _. now apply (prefix_append_l "http" "://").
  - destruct (String.prefix "https://" s) eqn:E2; [| discriminate].
    intros _. now apply (prefix_append_l "http" "s://").
Qed.

Lemma invalid_url_false_iff (v : js_value) :
  invalid_url v = false <-> exists s, v = JString s /\ startsWith s "http" = true.
Proof.
  split.
  - destruct v; try (now intros H; vm_compute in H);
      try (unfold invalid_url; simpl; rewrite ?orb_true_r; discriminate).
    unfold invalid_url. simpl. intros H.
    apply orb_false_iff in H as [_ H]. apply negb_false_iff in H. eauto.
  - intros (s & -> & H). unfold invalid_url. simpl. rewrite H.
    destruct s; [discriminate | reflexivity].
Qed.

(** C2, as the specification states it, fails: the text [httpfoo] is no
    absolute URL with scheme http or https, yet the guard of both handlers
    lets it through. *)
Lemma C2_guard_accepts_non_url :
  invalid_url (JString "httpfoo") = false
  /\ spec_valid_sourceUrl (JString "httpfoo") = false.
Proof. split; reflexivity. Qed.

(** C2, amended: the guard accepts a submitted value exactly when it is a
    string that starts with the four characters [http]; every other value
    (missing, not a string, empty, another prefix) is rejected; and every
    absolute [http://] or [https://] URL is among the accepted ones. *)
Theorem C2_guard_is_http_prefix (v : js_value) :
  (invalid_url v = false <-> exists s, v = JString s /\ startsWith s "http" = true)
  /\ (invalid_url v = true <-> forall s, v = JString s -> startsWith s "http" = false)
  /\ (spec_valid_sourceUrl v = true -> invalid_url v = false).
Proof.
  split; [apply invalid_url_false_iff |]. split.
  - split.
    + intros H s ->. destruct (startsWith s "http") eqn:E; [| reflexivity].
      assert (invalid_url (JString s) = false) by (apply invalid_url_false_iff; eauto).
      congruence.
    + intros H. destruct (invalid_url v) eqn:E; [reflexivity |].
      apply invalid_url_false_iff in E as (s & -> & Hs).
      rewrite (H s eq_refl) in Hs. discriminate.
  - destruct v; simpl; try discriminate.
    intros H. apply invalid_url_false_iff. eauto using spec_absolute_http_url_prefix.
Qed.

(** ** Runs of the blocking handler *)

Ltac js_unfold :=
  unfold bind, try_catch, ret, throw, emit, console_log, console_error, set_fs,
    res_status, res_json, get_headersSent, get_responseSent, set_responseSent,
    existsSync, unlinkSync, execSync;
  cbn [fs statusCode headersSent responseSent trace].

Ltac js_steps := repeat (progress js_unfold).

Section ServerRuns.

Variables (w : World) (dirname : string) (now : Z) (m3u8Url : js_value).
Variable fs0 : gmap string string.

Local Abbreviation out := (Server.outputPath dirname now).
Local Abbreviation cmd := (Server.command (url_text m3u8Url) out).

Lemma server_rejected_run :
  invalid_url m3u8Url = true ->
  run (Server.convert_m3u8 w dirname now m3u8Url) fs0 =
  (Normal tt,
   mkState fs0 400 true false
     [Console ConsoleLog [JString "[Backend] Invalid M3U8 URL received:"; m3u8Url];
      Respond 400 [("success", JBool false);
                   ("message", JString "Invalid or missing M3U8 URL in request body")]]).
Proof.
  intros H. unfold run, Server.convert_m3u8. rewrite H. reflexivity.
Qed.

Hypothesis accepted : invalid_url m3u8Url = false.

Lemma server_success_run (fs1 : gmap string string) :
  exec_result w cmd fs0 = (None, fs1) ->
  run (Server.convert_m3u8 w dirname now m3u8Url) fs0 =
  (Normal tt,
   mkState fs1 200 true false
     (server_prelude (url_text m3u8Url) out
      ++ [ProcStart (ShellCommand cmd); ProcExit true;
          Console ConsoleLog
            [JString ("[Backend] execSync finished successfully for: " +:+ out)];
          server_success_response now])).
Proof.
  intros Hexec. unfold run, Server.convert_m3u8. rewrite accepted.
  js_steps. unfold initial_state. 
  cbn [fs statusCode headersSent responseSent trace].
  rewrite Hexec. reflexivity.
Qed.

Lemma server_failure_run (error : string) (fs1 : gmap string string) :
  exec_result w cmd fs0 = (Some error, fs1) ->
  run (Server.convert_m3u8 w dirname now m3u8Url) fs0 =
  (Normal tt,
   mkState (after_cleanup w out fs1) 500 true false
     (server_prelude (url_text m3u8Url) out
      ++ [ProcStart (ShellCommand cmd); ProcExit false;
          Console ConsoleError
            [JString ("[Backend] Error executing FFmpeg with execSync: " +:+ error)];
          Console ConsoleError
            [JString "[Backend] FFmpeg likely failed. Check output above for FFmpeg errors."]]
      ++ server_cleanup_effects w out fs1
      ++ [server_failure_response])).
Proof.
  intros Hexec. unfold run, Server.convert_m3u8. rewrite accepted.
  js_steps. unfold initial_state.
  cbn [fs statusCode headersSent responseSent trace].
  rewrite Hexec. unfold Server.on_exec_error, Server.delete_incomplete.
  js_steps. unfold after_cleanup, server_cleanup_effects.
  destruct (fs1 !! out) as [content|] eqn:Hfile; cbn.
  - js_steps. rewrite Hfile.
    destruct (unlink_error w out) as [e|] eqn:Hunlink; reflexivity.
  - reflexivity.
Qed.

End ServerRuns.

(** ** Runs of the event-driven handler *)

Section IndexRuns.

Variables (w : World) (now : Z).

Local Abbreviation out := (Index.outputPath now).

Lemma on_progress_run (percent : option Q) (st : State) :
  Index.on_progress percent st =
  (Normal tt,
   mkState (fs st) (statusCode st) (headersSent st) (responseSent st)
           (trace st ++ progress_log percent)).
Proof.
  unfold Index.on_progress, progress_log.
  destruct percent as [p|]; [destruct (negb (Qeq_bool p 0)) |];
    js_steps; rewrite ?app_nil_r; now destruct st.
Qed.

Lemma on_error_sent (path message : string) (stderr : option string) (st : State) :
  responseSent st = true ->
  Index.on_error w path message stderr st = (Normal tt, st).
Proof. intros H. unfold Index.on_error. js_steps. now rewrite H. Qed.

Lemma on_end_sent (path : string) (st : State) :
  responseSent st = true -> Index.on_end path st = (Normal tt, st).
Proof. intros H. unfold Index.on_end. js_steps. now rewrite H. Qed.

Lemma on_end_fresh (path : string) (st : State) :
  responseSent st = false -> headersSent st = false ->
  Index.on_end path st =
  (Normal tt,
   mkState (fs st) (statusCode st) true true
     (trace st
      ++ [Console ConsoleLog
            [JString ("[Backend] Conversion finished successfully to tmp path: " +:+ path)];
          Console ConsoleLog
            [JString "[Backend] NOTE: File saved to temporary storage. Needs upload step for download."];
          Respond (statusCode st)
            [("success", JBool true);
             ("message", JString "Conversion successful (file in temporary storage).");
             ("downloadUrl", JNull)]])).
Proof.
  intros H1 H2. unfold Index.on_end. js_steps. rewrite H1. js_steps. rewrite H2.
  rewrite <- !app_assoc. reflexivity.
Qed.

Lemma on_error_fresh (path message : string) (stderr : option string) (st : State) :
  responseSent st = false -> headersSent st = false ->
  Index.on_error w path message stderr st =
  (Normal tt,
   mkState (after_cleanup w path (fs st)) 500 true true
     (trace st
      ++ [Console ConsoleError [JString "[Backend] FFmpeg error:"; JString message];
          Console ConsoleError
            [JString "[Backend] FFmpeg stderr:";
             JString (match stderr with
                      | Some s => if String.eqb s EmptyString then "Not available" else s
                      | None => "Not available"
                      end)]]
      ++ index_cleanup_effects w path (fs st)
      ++ [index_failure_response message])).
Proof.
  intros H1 H2. unfold Index.on_error. js_steps. rewrite H1. js_steps.
  unfold after_cleanup, index_cleanup_effects.
  destruct (fs st !! path) as [content|] eqn:Hfile; cbn.
  - js_steps. rewrite Hfile.
    destruct (unlink_error w path) as [e|] eqn:Hunlink; js_steps; rewrite H2;
      rewrite <- !app_assoc; reflexivity.
  - js_steps. rewrite H2. rewrite <- !app_assoc. reflexivity.
Qed.

(** The loop over two runs of ticks is the loop over the first, then over
    the second. *)
Lemma event_loop_app (path : string) (a b : list tick) (st : State) :
  Index.event_loop w path (a ++ b) st =
  match Index.event_loop w path a st with
  | (Normal _, st') => Index.event_loop w path b st'
  | (Throws e, st') => (Throws e, st')
  end.
Proof.
  revert st. induction a as [|t a IH]; intros st; [reflexivity |].
  destruct t as [content|e]; cbn [app Index.event_loop]; unfold bind.
  - destruct (Index.child_writes path content st) as [[[]|e'] st']; [apply IH | reflexivity].
  - destruct (Index.dispatch w path e st) as [[[]|e'] st']; [apply IH | reflexivity].
Qed.

(** Ticks without ['error'] and ['end'] only write and log. *)
Lemma event_loop_quiet (path : string) (ticks : list tick) (st : State) :
  first_terminal ticks = None ->
  Index.event_loop w path ticks st =
  (Normal tt,
   mkState (child_fs path ticks (fs st)) (statusCode st) (headersSent st)
           (responseSent st) (trace st ++ progress_logs ticks)).
Proof.
  revert st. induction ticks as [|t ticks IH]; intros st H.
  - cbn. rewrite app_nil_r. now destruct st.
  - destruct t as [content|[percent|message stderr|]]; try discriminate;
      cbn [Index.event_loop]; unfold bind.
    + unfold Index.child_writes, set_fs. rewrite (IH _ H). reflexivity.
    + cbn [Index.dispatch]. rewrite on_progress_run, (IH _ H). cbn.
      now rewrite <- app_assoc.
Qed.

(** Once a response has been sent, the listeners do nothing more. *)
Lemma event_loop_sent (path : string) (ticks : list tick) (st : State) :
  responseSent st = true ->
  Index.event_loop w path ticks st =
  (Normal tt,
   mkState (child_fs path ticks (fs st)) (statusCode st) (headersSent st)
           true (trace st ++ progress_logs ticks)).
Proof.
  revert st. induction ticks as [|t ticks IH]; intros st H.
  - cbn. rewrite app_nil_r. destruct st; cbn in *; now subst.
  - destruct t as [content|[percent|message stderr|]];
      cbn [Index.event_loop]; unfold bind.
    + unfold Index.child_writes, set_fs. rewrite IH by exact H. reflexivity.
    + cbn [Index.dispatch]. rewrite on_progress_run, IH by exact H. cbn.
      now rewrite <- app_assoc.
    + cbn [Index.dispatch]. rewrite on_error_sent by exact H. now rewrite IH.
    + cbn [Index.dispatch]. rewrite on_end_sent by exact H. now rewrite IH.
Qed.

Lemma split_at_terminal (ticks : list tick) (e : ffmpeg_event) :
  first_terminal ticks = Some e ->
  ticks = before_terminal ticks ++ Emits e :: after_terminal ticks
  /\ first_terminal (before_terminal ticks) = None.
Proof.
  induction ticks as [|t ticks IH]; [discriminate |].
  destruct t as [content|[percent|message stderr|]]; cbn; intros H.
  - destruct (IH H) as [E1 E2]. split; [now f_equal | exact E2].
  - destruct (IH H) as [E1 E2]. split; [now f_equal | exact E2].
  - injection H as <-. now split.
  - injection H as <-. now split.
Qed.

Lemma first_terminal_is_terminal (ticks : list tick) (percent : option Q) :
  first_terminal ticks <> Some (EvProgress percent).
Proof.
  induction ticks as [|t ticks IH]; [discriminate |].
  destruct t as [content|[p|message stderr|]]; cbn; try exact IH; discriminate.
Qed.

Lemma child_fs_split (path : string) (ticks : list tick) (files : gmap string string) :
  child_fs path ticks files =
  child_fs path (after_terminal ticks) (child_fs path (before_terminal ticks) files).
Proof.
  revert files. induction ticks as [|t ticks IH]; intros files; [reflexivity |].
  destruct t as [content|[percent|message stderr|]]; cbn; try apply IH; reflexivity.
Qed.

(** The loop from a state in which nothing has been answered yet, when
    ['end'] comes first. *)
Lemma event_loop_end_first (path : string) (ticks : list tick) (st : State) :
  responseSent st = false -> headersSent st = false ->
  first_terminal ticks = Some EvEnd ->
  Index.event_loop w path ticks st =
  (Normal tt,
   mkState (child_fs path ticks (fs st)) (statusCode st) true true
     (trace st ++ progress_logs (before_terminal ticks)
      ++ [Console ConsoleLog
            [JString ("[Backend] Conversion finished successfully to tmp path: " +:+ path)];
          Console ConsoleLog
            [JString "[Backend] NOTE: File saved to temporary storage. Needs upload step for download."];
          Respond (statusCode st)
            [("success", JBool true);
             ("message", JString "Conversion successful (file in temporary storage).");
             ("downloadUrl", JNull)]]
      ++ progress_logs (after_terminal ticks))).
Proof.
  intros H1 H2 Hfirst. destruct (split_at_terminal _ _ Hfirst) as [Hsplit Hquiet].
  rewrite (child_fs_split path ticks).
  assert (E := f_equal (fun t => Index.event_loop w path t st) Hsplit).
  cbv beta in E. rewrite E. clear E.
  rewrite event_loop_app, (event_loop_quiet _ _ _ Hquiet).
  cbn [Index.event_loop Index.dispatch]. unfold bind.
  rewrite on_end_fresh by assumption. cbn [fs statusCode headersSent responseSent trace].
  rewrite event_loop_sent by reflexivity.
  cbn [fs statusCode headersSent responseSent trace].
  rewrite <- !app_assoc. reflexivity.
Qed.

(** ... and when ['error'] comes first. *)
Lemma event_loop_error_first (path : string) (ticks : list tick) (st : State)
      (message : string) (stderr : option string) :
  responseSent st = false -> headersSent st = false ->
  first_terminal ticks = Some (EvError message stderr) ->
  Index.event_loop w path ticks st =
  (Normal tt,
   mkState
     (child_fs path (after_terminal ticks)
        (after_cleanup w path (child_fs path (before_terminal ticks) (fs st))))
     500 true true
     (trace st ++ progress_logs (before_terminal ticks)
      ++ [Console ConsoleError [JString "[Backend] FFmpeg error:"; JString message];
          Console ConsoleError
            [JString "[Backend] FFmpeg stderr:";
             JString (match stderr with
                      | Some s => if String.eqb s EmptyString then "Not available" else s
                      | None => "Not available"
                      end)]]
      ++ index_cleanup_effects w path (child_fs path (before_terminal ticks) (fs st))
      ++ [index_failure_response message]
      ++ progress_logs (after_terminal ticks))).
Proof.
  intros H1 H2 Hfirst. destruct (split_at_terminal _ _ Hfirst) as [Hsplit Hquiet].
  assert (E := f_equal (fun t => Index.event_loop w path t st) Hsplit).
  cbv beta in E. rewrite E. clear E.
  rewrite event_loop_app, (event_loop_quiet _ _ _ Hquiet).
  cbn [Index.event_loop Index.dispatch]. unfold bind.
  rewrite on_error_fresh by assumption. cbn [fs statusCode headersSent responseSent trace].
  rewrite event_loop_sent by reflexivity.
  cbn [fs statusCode headersSent responseSent trace].
  rewrite <- !app_assoc. reflexivity.
Qed.


Variable m3u8Url : js_value.
Variable fs0 : gmap string string.

Local Abbreviation url := (url_text m3u8Url).

Lemma index_rejected_run :
  invalid_url m3u8Url = true ->
  run (Index.convert_m3u8 w now m3u8Url) fs0 =
  (Normal tt,
   mkState fs0 400 true false
     [Console ConsoleLog [JString "[Backend] Invalid M3U8 URL received:"; m3u8Url];
      Respond 400 [("success", JBool false);
                   ("message", JString "Invalid or missing M3U8 URL")]]).
Proof.
  intros H. unfold run, Index.convert_m3u8. rewrite H. reflexivity.
Qed.

Lemma index_rejected_request (ticks : list tick) :
  invalid_url m3u8Url = true ->
  run (Index.request w now m3u8Url ticks) fs0 =
  run (Index.convert_m3u8 w now m3u8Url) fs0.
Proof.
  intros H. unfold run, Index.request, bind. rewrite H.
  fold (run (Index.convert_m3u8 w now m3u8Url) fs0).
  now rewrite (index_rejected_run H).
Qed.

Hypothesis accepted : invalid_url m3u8Url = false.

Lemma index_started_run :
  setup_error w (index_command url out) = None ->
  run (Index.convert_m3u8 w now m3u8Url) fs0 =
  (Normal tt,
   mkState fs0 200 false false
     (index_prelude url out ++ [ProcStart (FfmpegRun (index_command url out))])).
Proof.
  intros Hsetup. unfold run, Index.convert_m3u8. rewrite accepted.
  unfold Index.save. cbn [Index.build Index.outputOptions Index.inputOptions Index.ffmpeg
    input timeout inputOpts outputOpts target app].
  fold (index_command url out). rewrite Hsetup. reflexivity.
Qed.

Lemma index_setup_failed_run (error : string) :
  setup_error w (index_command url out) = Some error ->
  run (Index.convert_m3u8 w now m3u8Url) fs0 =
  (Normal tt,
   mkState fs0 500 true true
     (index_prelude url out
      ++ [Console ConsoleError
            [JString "[Backend] Error setting up FFmpeg command:"; JError error];
          index_setup_failure_response error])).
Proof.
  intros Hsetup. unfold run, Index.convert_m3u8. rewrite accepted.
  unfold Index.save. cbn [Index.build Index.outputOptions Index.inputOptions Index.ffmpeg
    input timeout inputOpts outputOpts target app].
  fold (index_command url out). rewrite Hsetup. reflexivity.
Qed.

Lemma request_unfold (ticks : list tick) (st : State) :
  run (Index.convert_m3u8 w now m3u8Url) fs0 = (Normal tt, st) ->
  run (Index.request w now m3u8Url ticks) fs0 = Index.event_loop w out ticks st.
Proof.
  intros H. unfold run, Index.request, bind in *. now rewrite H, accepted.
Qed.

Lemma request_quiet_run (ticks : list tick) :
  setup_error w (index_command url out) = None ->
  first_terminal ticks = None ->
  run (Index.request w now m3u8Url ticks) fs0 =
  (Normal tt,
   mkState (child_fs out ticks fs0) 200 false false
     (index_prelude url out ++ [ProcStart (FfmpegRun (index_command url out))]
      ++ progress_logs ticks)).
Proof.
  intros Hsetup Hquiet.
  rewrite (request_unfold ticks _ (index_started_run Hsetup)).
  rewrite event_loop_quiet by exact Hquiet. cbn [fs statusCode headersSent responseSent trace].
  now rewrite <- !app_assoc.
Qed.

Lemma request_end_run (ticks : list tick) :
  setup_error w (index_command url out) = None ->
  first_terminal ticks = Some EvEnd ->
  run (Index.request w now m3u8Url ticks) fs0 =
  (Normal tt,
   mkState (child_fs out ticks fs0) 200 true true
     (index_prelude url out ++ [ProcStart (FfmpegRun (index_command url out))]
      ++ progress_logs (before_terminal ticks)
      ++ index_end_effects out
      ++ progress_logs (after_terminal ticks))).
Proof.
  intros Hsetup Hend.
  rewrite (request_unfold ticks _ (index_started_run Hsetup)).
  rewrite event_loop_end_first by (exact Hend || reflexivity).
  cbn [fs statusCode headersSent responseSent trace].
  now rewrite <- !app_assoc.
Qed.

Lemma request_error_run (ticks : list tick) (message : string) (stderr : option string) :
  setup_error w (index_command url out) = None ->
  first_terminal ticks = Some (EvError message stderr) ->
  run (Index.request w now m3u8Url ticks) fs0 =
  (Normal tt,
   mkState
     (child_fs out (after_terminal ticks)
        (after_cleanup w out (child_fs out (before_terminal ticks) fs0)))
     500 true true
     (index_prelude url out ++ [ProcStart (FfmpegRun (index_command url out))]
      ++ progress_logs (before_terminal ticks)
      ++ index_error_logs message stderr
      ++ index_cleanup_effects w out (child_fs out (before_terminal ticks) fs0)
      ++ [index_failure_response message]
      ++ progress_logs (after_terminal ticks))).
Proof.
  intros Hsetup Herr.
  rewrite (request_unfold ticks _ (index_started_run Hsetup)).
  rewrite (event_loop_error_first _ _ _ message stderr) by (exact Herr || reflexivity).
  cbn [fs statusCode headersSent responseSent trace].
  now rewrite <- !app_assoc.
Qed.

Lemma request_setup_failed_run (ticks : list tick) (error : string) :
  setup_error w (index_command url out) = Some error ->
  run (Index.request w now m3u8Url ticks) fs0 =
  (Normal tt,
   mkState (child_fs out ticks fs0) 500 true true
     (index_prelude url out
      ++ [Console ConsoleError
            [JString "[Backend] Error setting up FFmpeg command:"; JError error];
          index_setup_failure_response error]
      ++ progress_logs ticks)).
Proof.
  intros Hsetup.
  rewrite (request_unfold ticks _ (index_setup_failed_run _ Hsetup)).
  rewrite event_loop_sent by reflexivity.
  cbn [fs statusCode headersSent responseSent trace].
  now rewrite <- !app_assoc.
Qed.

End IndexRuns.

(** ** Reading traces *)

Section Traces.

Lemma responses_app (a b : list effect) : responses (a ++ b) = responses a ++ responses b.
Proof. apply List.filter_app. Qed.

Lemma unlinks_app (a b : list effect) : unlinks (a ++ b) = unlinks a ++ unlinks b.
Proof. apply List.filter_app. Qed.

Lemma starts_app (a b : list effect) : starts (a ++ b) = starts a ++ starts b.
Proof. apply List.filter_app. Qed.

Lemma progress_log_console (percent : option Q) :
  responses (progress_log percent) = []
  /\ unlinks (progress_log percent) = []
  /\ starts (progress_log percent) = []
  /\ existsb is_proc_exit (progress_log percent) = false.
Proof.
  unfold progress_log. destruct percent as [p|]; [destruct (negb _) |]; now cbn.
Qed.

Lemma progress_logs_console (ticks : list tick) :
  responses (progress_logs ticks) = []
  /\ unlinks (progress_logs ticks) = []
  /\ starts (progress_logs ticks) = []
  /\ existsb is_proc_exit (progress_logs ticks) = false.
Proof.
  induction ticks as [|t ticks IH]; [now cbn |].
  destruct t as [content|[percent|message stderr|]]; cbn [progress_logs]; try exact IH.
  destruct IH as (I1 & I2 & I3 & I4).
  destruct (progress_log_console percent) as (P1 & P2 & P3 & P4).
  rewrite responses_app, unlinks_app, starts_app, existsb_app, I1, I2, I3, I4, P1, P2, P3, P4.
  now cbn.
Qed.

Lemma responses_progress_logs (ticks : list tick) : responses (progress_logs ticks) = [].
Proof. apply progress_logs_console. Qed.

Lemma unlinks_progress_logs (ticks : list tick) : unlinks (progress_logs ticks) = [].
Proof. apply progress_logs_console. Qed.

Lemma starts_progress_logs (ticks : list tick) : starts (progress_logs ticks) = [].
Proof. apply progress_logs_console. Qed.

Lemma exits_progress_logs (ticks : list tick) :
  existsb is_proc_exit (progress_logs ticks) = false.
Proof. apply progress_logs_console. Qed.

Variables (w : World) (path : string) (files : gmap string string).

Lemma responses_server_cleanup : responses (server_cleanup_effects w path files) = [].
Proof.
  unfold server_cleanup_effects.
  destruct (files !! path); [destruct (unlink_error w path) |]; reflexivity.
Qed.

Lemma responses_index_cleanup : responses (index_cleanup_effects w path files) = [].
Proof.
  unfold index_cleanup_effects.
  destruct (files !! path); [destruct (unlink_error w path) |]; reflexivity.
Qed.

Lemma starts_server_cleanup : starts (server_cleanup_effects w path files) = [].
Proof.
  unfold server_cleanup_effects.
  destruct (files !! path); [destruct (unlink_error w path) |]; reflexivity.
Qed.

Lemma starts_index_cleanup : starts (index_cleanup_effects w path files) = [].
Proof.
  unfold index_cleanup_effects.
  destruct (files !! path); [destruct (unlink_error w path) |]; reflexivity.
Qed.

Lemma exits_index_cleanup :
  existsb is_proc_exit (index_cleanup_effects w path files) = false.
Proof.
  unfold index_cleanup_effects.
  destruct (files !! path); [destruct (unlink_error w path) |]; reflexivity.
Qed.

Lemma after_cleanup_removes :
  unlink_error w path = None -> after_cleanup w path files !! path = None.
Proof.
  intros H. unfold after_cleanup. rewrite H.
  destruct (files !! path) eqn:E; [apply lookup_delete_eq | exact E].
Qed.

Lemma after_cleanup_keeps (content e : string) :
  files !! path = Some content -> unlink_error w path = Some e ->
  after_cleanup w path files = files.
Proof. intros H1 H2. unfold after_cleanup. now rewrite H1, H2. Qed.

End Traces.

Create Rewrite HintDb traces.

#[local] Hint Rewrite responses_app unlinks_app starts_app existsb_app
  responses_progress_logs unlinks_progress_logs starts_progress_logs exits_progress_logs
  responses_server_cleanup responses_index_cleanup starts_server_cleanup
  starts_index_cleanup exits_index_cleanup : traces.

Ltac read_trace :=
  cbn [fst snd fs statusCode headersSent responseSent trace];
  autorewrite with traces;
  cbn [responses unlinks starts List.filter existsb is_respond is_unlink is_proc_start
       is_proc_exit app orb server_prelude index_prelude index_end_effects
       index_error_logs server_success_response server_failure_response
       index_success_response index_failure_response index_setup_failure_response].

Ltac find_in :=
  repeat first [left; reflexivity | right | apply in_or_app; right].

(** ** C6: an invalid url is turned away on the spot *)

(** C6: for every submitted value that fails the guard, each handler sends
    its single 400 response before it returns, completes normally, starts no
    child process and leaves the file system as it was; in the event-driven
    variant no listener exists, so later ticks change nothing. *)
Theorem C6_invalid_url_rejected_synchronously
        (w : World) (dirname : string) (now : Z) (m3u8Url : js_value)
        (fs0 : gmap string string) (ticks : list tick) :
  invalid_url m3u8Url = true ->
  let server := run (Server.convert_m3u8 w dirname now m3u8Url) fs0 in
  let index := run (Index.convert_m3u8 w now m3u8Url) fs0 in
  (fst server = Normal tt /\ fst index = Normal tt)
  /\ (exists r, responses (trace (snd server)) = [r] /\ is_rejection r = true)
  /\ (exists r, responses (trace (snd index)) = [r] /\ is_rejection r = true)
  /\ (starts (trace (snd server)) = [] /\ starts (trace (snd index)) = [])
  /\ (fs (snd server) = fs0 /\ fs (snd index) = fs0)
  /\ run (Index.request w now m3u8Url ticks) fs0 = index.
Proof.
  intros H. cbv zeta.
  rewrite (index_rejected_request w now m3u8Url fs0 ticks H).
  rewrite (server_rejected_run w dirname now m3u8Url fs0 H).
  rewrite (index_rejected_run w now m3u8Url fs0 H).
  repeat split; eauto.
Qed.

(** The theorem of C6 at the text [not-a-url]. *)
Lemma C6_witness_not_a_url :
  let w := example_world "/tmp/x" "bytes" None None in
  let server := run (Server.convert_m3u8 w "/srv/app" 1700000000000 (JString "not-a-url")) ∅ in
  let index := run (Index.convert_m3u8 w 1700000000000 (JString "not-a-url")) ∅ in
  (fst server = Normal tt /\ fst index = Normal tt)
  /\ (exists r, responses (trace (snd server)) = [r] /\ is_rejection r = true)
  /\ (exists r, responses (trace (snd index)) = [r] /\ is_rejection r = true)
  /\ (starts (trace (snd server)) = [] /\ starts (trace (snd index)) = [])
  /\ (fs (snd server) = ∅ /\ fs (snd index) = ∅)
  /\ run (Index.request w 1700000000000 (JString "not-a-url") [Emits EvEnd]) ∅ = index.
Proof.
  exact (C6_invalid_url_rejected_synchronously
           (example_world "/tmp/x" "bytes" None None) "/srv/app" 1700000000000
           (JString "not-a-url") ∅ [Emits EvEnd] eq_refl).
Defined.

(** ** C5: what the external tool is invoked with *)

Lemma prefix_append_self (n r : string) : String.prefix n (n +:+ r) = true.
Proof.
  induction n as [|c n IH]; simpl; [now destruct r |].
  destruct (ascii_dec c c); [exact IH | congruence].
Qed.

Section ShellReading.







End ShellReading.



(** C5 fails on server.js: the url is put between double quotes without any
    escaping, so an accepted url that holds a double quote ends the quoting.
    For the url [http://x], a quote, [ -version ] and a quote, the shell
    gives ffmpeg the input [http://x] and two further arguments, [-version]
    and an empty one, in place of the submitted url. index.js, the sibling,
    hands the same url to fluent-ffmpeg unchanged as the input. *)
Theorem C5_quote_in_url_changes_invocation :
  let w := example_world example_server_path "mp4 bytes" None None in
  let m3u8Url := JString example_quote_url in
  let command :=
    Server.command example_quote_url (Server.outputPath example_dirname example_now) in
  invalid_url m3u8Url = false
  /\ quote_safe example_quote_url = false
  /\ starts (trace (snd (run (Server.convert_m3u8 w example_dirname example_now m3u8Url)
                             ∅)))
     = [ProcStart (ShellCommand command)]
  /\ sh_words command
     = Some ["ffmpeg"; "-y"; "-protocol_whitelist"; "file,http,https,tcp,tls,crypto";
             "-i"; "http://x"; "-version"; EmptyString;
             "-bsf:a"; "aac_adtstoasc"; "-c"; "copy";
             "/srv/app/public/downloads/converted_1700000000000.mp4"]
  /\ starts (trace (snd (run (Index.convert_m3u8 w example_now m3u8Url) ∅)))
     = [ProcStart (FfmpegRun (index_command example_quote_url (Index.outputPath example_now)))]
  /\ input (index_command example_quote_url (Index.outputPath example_now))
     = example_quote_url.
Proof. repeat apply conj; vm_compute; reflexivity. Qed.

(** ** What each variant answers *)

Section Answers.

Variables (w : World) (dirname : string) (now : Z) (m3u8Url : js_value).
Variable fs0 : gmap string string.
Hypothesis accepted : invalid_url m3u8Url = false.

Local Abbreviation server_run := (run (Server.convert_m3u8 w dirname now m3u8Url) fs0).
Local Abbreviation server_cmd :=
  (Server.command (url_text m3u8Url) (Server.outputPath dirname now)).
Local Abbreviation index_cmd :=
  (index_command (url_text m3u8Url) (Index.outputPath now)).

Lemma server_answers :
  fst server_run = Normal tt
  /\ responses (trace (snd server_run)) =
     match fst (exec_result w server_cmd fs0) with
     | None => [server_success_response now]
     | Some _ => [server_failure_response]
     end.
Proof.
  destruct (exec_result w server_cmd fs0) as [[error|] fs1] eqn:Hexec.
  - rewrite (server_failure_run w dirname now m3u8Url fs0 accepted error fs1 Hexec).
    read_trace. now split.
  - rewrite (server_success_run w dirname now m3u8Url fs0 accepted fs1 Hexec).
    read_trace. now split.
Qed.

Lemma server_exit_precedes_response :
  exit_precedes_response (trace (snd server_run)) = true.
Proof.
  destruct (exec_result w server_cmd fs0) as [[error|] fs1] eqn:Hexec.
  - rewrite (server_failure_run w dirname now m3u8Url fs0 accepted error fs1 Hexec).
    cbn [snd trace server_prelude app exit_precedes_response existsb is_respond orb].
    rewrite existsb_app. cbn. apply orb_true_r.
  - rewrite (server_success_run w dirname now m3u8Url fs0 accepted fs1 Hexec).
    reflexivity.
Qed.

Variable ticks : list tick.

Local Abbreviation index_run := (run (Index.request w now m3u8Url ticks) fs0).

Lemma index_answers :
  fst index_run = Normal tt
  /\ responses (trace (snd index_run)) =
     match setup_error w index_cmd, first_terminal ticks with
     | Some error, _ => [index_setup_failure_response error]
     | None, Some (EvError message _) => [index_failure_response message]
     | None, Some EvEnd => [index_success_response]
     | None, _ => []
     end
  /\ existsb is_proc_exit (trace (snd index_run)) = false.
Proof.
  destruct (setup_error w index_cmd) as [error|] eqn:Hsetup.
  - rewrite (request_setup_failed_run w now m3u8Url fs0 accepted ticks error Hsetup).
    read_trace. repeat split.
  - destruct (first_terminal ticks) as [[percent|message stderr|]|] eqn:Hfirst.
    + now destruct (first_terminal_is_terminal ticks percent).
    + rewrite (request_error_run w now m3u8Url fs0 accepted ticks message stderr
                                 Hsetup Hfirst).
      read_trace. repeat split.
    + rewrite (request_end_run w now m3u8Url fs0 accepted ticks Hsetup Hfirst).
      read_trace. repeat split.
    + rewrite (request_quiet_run w now m3u8Url fs0 accepted ticks Hsetup Hfirst).
      read_trace. repeat split.
Qed.

End Answers.

(** ** C3: one terminal outcome per accepted request *)

(** C3: for every accepted request exactly one terminal outcome reaches the
    caller, a success or a failure and never both. The blocking handler
    always sends exactly one response. The event-driven handler never sends
    more than one, however ['progress'], ['error'] and ['end'] are emitted
    and whether or not the set-up throws, and sends exactly one as soon as
    the set-up throws or an ['error'] or ['end'] is emitted; no listener ever
    throws. *)
Theorem C3_exactly_one_terminal_outcome
        (w : World) (dirname : string) (now : Z) (m3u8Url : js_value)
        (fs0 : gmap string string) (ticks : list tick) :
  invalid_url m3u8Url = false ->
  let server := run (Server.convert_m3u8 w dirname now m3u8Url) fs0 in
  let index := run (Index.request w now m3u8Url ticks) fs0 in
  (fst server = Normal tt
   /\ exists r, responses (trace (snd server)) = [r]
                /\ is_success r = negb (is_failure r))
  /\ (fst index = Normal tt /\ length (responses (trace (snd index))) <= 1)
  /\ (setup_error w (index_command (url_text m3u8Url) (Index.outputPath now)) <> None
      \/ first_terminal ticks <> None ->
      exists r, responses (trace (snd index)) = [r]
                /\ is_success r = negb (is_failure r)).
Proof.
  intros Hok. cbv zeta.
  destruct (server_answers w dirname now m3u8Url fs0 Hok) as [Hs1 Hs2].
  destruct (index_answers w now m3u8Url fs0 Hok ticks) as (Hi1 & Hi2 & _).
  rewrite Hs1, Hs2, Hi1, Hi2. clear.
  split; [| split].
  - split; [reflexivity |].
    destruct (fst (exec_result _ _ _)); eexists; split; reflexivity.
  - split; [reflexivity |].
    destruct (setup_error _ _); [cbn; lia |].
    destruct (first_terminal ticks) as [[| |]|]; cbn; lia.
  - intros [H|H].
    + destruct (setup_error _ _) as [error|]; [| congruence].
      eexists; split; reflexivity.
    + destruct (setup_error _ _) as [error|]; [eexists; split; reflexivity |].
      destruct (first_terminal ticks) as [[percent|message stderr|]|] eqn:Hfirst.
      * now destruct (first_terminal_is_terminal ticks percent).
      * eexists; split; reflexivity.
      * eexists; split; reflexivity.
      * congruence.
Qed.

(** ** Deletions *)

Section Deletions.

Variables (w : World) (dirname : string) (now : Z) (m3u8Url : js_value).
Variable fs0 : gmap string string.
Hypothesis accepted : invalid_url m3u8Url = false.

Local Abbreviation server_run := (run (Server.convert_m3u8 w dirname now m3u8Url) fs0).
Local Abbreviation server_out := (Server.outputPath dirname now).
Local Abbreviation server_cmd := (Server.command (url_text m3u8Url) server_out).
Local Abbreviation index_out := (Index.outputPath now).
Local Abbreviation index_cmd := (index_command (url_text m3u8Url) index_out).

Lemma server_unlinks :
  unlinks (trace (snd server_run)) =
  match exec_result w server_cmd fs0 with
  | (None, _) => []
  | (Some _, fs1) => unlinks (server_cleanup_effects w server_out fs1)
  end.
Proof.
  destruct (exec_result w server_cmd fs0) as [[error|] fs1] eqn:Hexec.
  - rewrite (server_failure_run w dirname now m3u8Url fs0 accepted error fs1 Hexec).
    read_trace. now rewrite app_nil_r.
  - rewrite (server_success_run w dirname now m3u8Url fs0 accepted fs1 Hexec).
    read_trace. reflexivity.
Qed.

Variable ticks : list tick.

Local Abbreviation index_run := (run (Index.request w now m3u8Url ticks) fs0).

Lemma index_unlinks :
  unlinks (trace (snd index_run)) =
  match setup_error w index_cmd, first_terminal ticks with
  | None, Some (EvError _ _) =>
      unlinks (index_cleanup_effects w index_out
                 (child_fs index_out (before_terminal ticks) fs0))
  | _, _ => []
  end.
Proof.
  destruct (setup_error w index_cmd) as [error|] eqn:Hsetup.
  - rewrite (request_setup_failed_run w now m3u8Url fs0 accepted ticks error Hsetup).
    read_trace. reflexivity.
  - destruct (first_terminal ticks) as [[percent|message stderr|]|] eqn:Hfirst.
    + now destruct (first_terminal_is_terminal ticks percent).
    + rewrite (request_error_run w now m3u8Url fs0 accepted ticks message stderr
                                 Hsetup Hfirst).
      read_trace. now rewrite app_nil_r.
    + rewrite (request_end_run w now m3u8Url fs0 accepted ticks Hsetup Hfirst).
      read_trace. reflexivity.
    + rewrite (request_quiet_run w now m3u8Url fs0 accepted ticks Hsetup Hfirst).
      read_trace. reflexivity.
Qed.

End Deletions.

(** ** Output paths *)

Lemma server_basename_outputPath (dirname : string) (now : Z) :
  basename (Server.outputPath dirname now) = outputFileName now.
Proof. apply basename_path_join, outputFileName_plain. Qed.

Lemma index_basename_outputPath (now : Z) :
  basename (Index.outputPath now) = outputFileName now.
Proof. apply basename_path_join, outputFileName_plain. Qed.

(** Requests handled at different milliseconds get different paths. *)
Lemma server_outputPath_inj (dirname : string) (a b : Z) :
  Server.outputPath dirname a = Server.outputPath dirname b -> a = b.
Proof.
  intros H. apply outputFileName_inj.
  now rewrite <- !(server_basename_outputPath dirname), H.
Qed.

Lemma index_outputPath_inj (a b : Z) : Index.outputPath a = Index.outputPath b -> a = b.
Proof.
  intros H. apply outputFileName_inj.
  now rewrite <- !index_basename_outputPath, H.
Qed.

(** ** C10: the success path *)

(** C10: on the success path no deletion is performed and the file system is
    exactly what the child left: in server.js when [execSync] returns, in
    index.js when ['end'] is the first of ['error'] and ['end']; a deletion
    is attempted only in runs that report a failure; and the download URL
    that server.js returns is ['/downloads/'] followed by the basename of
    the output path. *)
Theorem C10_success_path_leaves_file
        (w : World) (dirname : string) (now : Z) (m3u8Url : js_value)
        (fs0 : gmap string string) (ticks : list tick) :
  invalid_url m3u8Url = false ->
  let server := snd (run (Server.convert_m3u8 w dirname now m3u8Url) fs0) in
  let index := snd (run (Index.request w now m3u8Url ticks) fs0) in
  (forall fs1,
      exec_result w (Server.command (url_text m3u8Url) (Server.outputPath dirname now)) fs0
      = (None, fs1) ->
      unlinks (trace server) = [] /\ fs server = fs1
      /\ responses (trace server)
         = [Respond 200
              [("success", JBool true);
               ("downloadUrl",
                JString ("/downloads/" +:+ basename (Server.outputPath dirname now)))]])
  /\ (setup_error w (index_command (url_text m3u8Url) (Index.outputPath now)) = None ->
      first_terminal ticks = Some EvEnd ->
      unlinks (trace index) = []
      /\ fs index = child_fs (Index.outputPath now) ticks fs0
      /\ responses (trace index) = [index_success_response])
  /\ (unlinks (trace server) <> [] ->
      exists r, responses (trace server) = [r] /\ is_failure r = true)
  /\ (unlinks (trace index) <> [] ->
      exists r, responses (trace index) = [r] /\ is_failure r = true).
Proof.
  intros Hok. cbv zeta. repeat apply conj.
  - intros fs1 Hexec.
    rewrite (server_success_run w dirname now m3u8Url fs0 Hok fs1 Hexec).
    read_trace. rewrite server_basename_outputPath. repeat split.
  - intros Hsetup Hend.
    rewrite (request_end_run w now m3u8Url fs0 Hok ticks Hsetup Hend).
    read_trace. repeat split.
  - rewrite (server_unlinks w dirname now m3u8Url fs0 Hok).
    destruct (server_answers w dirname now m3u8Url fs0 Hok) as [_ ->].
    destruct (exec_result w _ fs0) as [[error|] fs1]; [| congruence].
    intros _. eexists; split; reflexivity.
  - rewrite (index_unlinks w now m3u8Url fs0 Hok ticks).
    destruct (index_answers w now m3u8Url fs0 Hok ticks) as (_ & -> & _).
    destruct (setup_error w _) as [error|]; [congruence |].
    destruct (first_terminal ticks) as [[percent|message stderr|]|]; try congruence.
    intros _. eexists; split; reflexivity.
Qed.

(** ** C1: who waits for the child *)

(** C1, as the specification states it, fails on server.js: for an accepted
    url the response is sent only after [execSync] has seen the child
    exit. *)
Lemma C1_blocking_variant_responds_after_exit :
  invalid_url example_url = false
  /\ exit_precedes_response
       (trace (snd (run (Server.convert_m3u8
                           (example_world example_server_path "mp4 bytes" None None)
                           example_dirname example_now example_url) ∅))) = true.
Proof. split; vm_compute; reflexivity. Qed.

(** C1, amended: in the event-driven variant (index.js) the handler never
    observes the exit of the child synchronously: when the set-up does not
    throw it starts the child and returns normally without having sent a
    response, and the response is sent only once an ['error'] or ['end']
    notification arrives (none before, exactly one after). In the blocking
    variant (server.js) the handler waits for the exit and responds only
    after it. *)
Theorem C1_only_event_variant_is_non_blocking
        (w : World) (dirname : string) (now : Z) (m3u8Url : js_value)
        (fs0 : gmap string string) (ticks : list tick) :
  invalid_url m3u8Url = false ->
  let server := run (Server.convert_m3u8 w dirname now m3u8Url) fs0 in
  let handler := run (Index.convert_m3u8 w now m3u8Url) fs0 in
  let index := run (Index.request w now m3u8Url ticks) fs0 in
  let c := index_command (url_text m3u8Url) (Index.outputPath now) in
  exit_precedes_response (trace (snd server)) = true
  /\ existsb is_proc_exit (trace (snd index)) = false
  /\ (setup_error w c = None ->
      fst handler = Normal tt
      /\ starts (trace (snd handler)) = [ProcStart (FfmpegRun c)]
      /\ existsb is_proc_exit (trace (snd handler)) = false
      /\ responses (trace (snd handler)) = []
      /\ (first_terminal ticks = None -> responses (trace (snd index)) = [])
      /\ (first_terminal ticks <> None -> length (responses (trace (snd index))) = 1)).
Proof.
  intros Hok. cbv zeta.
  destruct (index_answers w now m3u8Url fs0 Hok ticks) as (_ & Hi2 & Hi3).
  split; [now apply server_exit_precedes_response |].
  split; [exact Hi3 |].
  intros Hsetup. rewrite Hi2, Hsetup.
  rewrite (index_started_run w now m3u8Url fs0 Hok Hsetup). read_trace.
  repeat apply conj; try reflexivity.
  - now intros ->.
  - destruct (first_terminal ticks) as [[percent|message stderr|]|] eqn:Hfirst;
      try reflexivity; try congruence.
    now destruct (first_terminal_is_terminal ticks percent).
Qed.

(** ** C4 and C7: cleaning up after a failure *)

(** C4, as the specification states it, fails: when [unlinkSync] throws, the
    failure is reported and the partial file is still there. *)
Lemma C4_file_remains_when_unlink_fails :
  let w := example_world example_server_path "partial"
                         (Some "Command failed") (Some "EPERM") in
  let st := snd (run (Server.convert_m3u8 w example_dirname example_now example_url) ∅) in
  responses (trace st) = [server_failure_response]
  /\ fs st !! Server.outputPath example_dirname example_now = Some "partial".
Proof. split; vm_compute; reflexivity. Qed.

(** C4, amended: for every conversion that fails in the child (in server.js
    [execSync] throws; in index.js ['error'] is the first of ['error'] and
    ['end'], and the last tick), the failure is the one response sent and,
    provided [unlinkSync] does not throw on the output path, no file
    remains at the output path once the failure has been reported. *)
Theorem C4_failed_conversion_removes_file
        (w : World) (dirname : string) (now : Z) (m3u8Url : js_value)
        (fs0 : gmap string string) (ticks : list tick) :
  invalid_url m3u8Url = false ->
  let server := snd (run (Server.convert_m3u8 w dirname now m3u8Url) fs0) in
  let index := snd (run (Index.request w now m3u8Url ticks) fs0) in
  (forall error fs1,
      exec_result w (Server.command (url_text m3u8Url) (Server.outputPath dirname now)) fs0
      = (Some error, fs1) ->
      unlink_error w (Server.outputPath dirname now) = None ->
      responses (trace server) = [server_failure_response]
      /\ fs server !! Server.outputPath dirname now = None)
  /\ (forall message stderr,
      setup_error w (index_command (url_text m3u8Url) (Index.outputPath now)) = None ->
      first_terminal ticks = Some (EvError message stderr) ->
      after_terminal ticks = [] ->
      unlink_error w (Index.outputPath now) = None ->
      responses (trace index) = [index_failure_response message]
      /\ fs index !! Index.outputPath now = None).
Proof.
  intros Hok. cbv zeta. split.
  - intros error fs1 Hexec Hunlink.
    rewrite (server_failure_run w dirname now m3u8Url fs0 Hok error fs1 Hexec).
    read_trace. split; [reflexivity |]. now apply after_cleanup_removes.
  - intros message stderr Hsetup Hfirst Hlast Hunlink.
    rewrite (request_error_run w now m3u8Url fs0 Hok ticks message stderr Hsetup Hfirst).
    read_trace. split; [reflexivity |].
    rewrite Hlast. cbn [child_fs]. now apply after_cleanup_removes.
Qed.

(** C7: when the deletion of the partial file throws during the clean-up of
    a failed conversion, the handler completes normally, the error is
    written to the console, and the failure response that is sent is the
    one that is sent when the deletion succeeds. *)
Theorem C7_deletion_error_swallowed
        (w : World) (dirname : string) (now : Z) (m3u8Url : js_value)
        (fs0 : gmap string string) (ticks : list tick) (e : string) :
  invalid_url m3u8Url = false ->
  let server := run (Server.convert_m3u8 w dirname now m3u8Url) fs0 in
  let server_ok :=
    run (Server.convert_m3u8 (with_unlink_ok w) dirname now m3u8Url) fs0 in
  let index := run (Index.request w now m3u8Url ticks) fs0 in
  let index_ok := run (Index.request (with_unlink_ok w) now m3u8Url ticks) fs0 in
  (forall error fs1,
      exec_result w (Server.command (url_text m3u8Url) (Server.outputPath dirname now)) fs0
      = (Some error, fs1) ->
      is_Some (fs1 !! Server.outputPath dirname now) ->
      unlink_error w (Server.outputPath dirname now) = Some e ->
      fst server = Normal tt
      /\ In (Console ConsoleError
               [JString ("[Backend] Error deleting incomplete file: " +:+ e)])
            (trace (snd server))
      /\ responses (trace (snd server)) = [server_failure_response]
      /\ responses (trace (snd server)) = responses (trace (snd server_ok)))
  /\ (forall message stderr,
      setup_error w (index_command (url_text m3u8Url) (Index.outputPath now)) = None ->
      first_terminal ticks = Some (EvError message stderr) ->
      is_Some (child_fs (Index.outputPath now) (before_terminal ticks) fs0
               !! Index.outputPath now) ->
      unlink_error w (Index.outputPath now) = Some e ->
      fst index = Normal tt
      /\ In (Console ConsoleError [JString ("Error deleting tmp file: " +:+ e)])
            (trace (snd index))
      /\ responses (trace (snd index)) = [index_failure_response message]
      /\ responses (trace (snd index)) = responses (trace (snd index_ok))).
Proof.
  intros Hok. cbv zeta. split.
  - intros error fs1 Hexec [content Hfile] Hunlink.
    rewrite (server_failure_run w dirname now m3u8Url fs0 Hok error fs1 Hexec).
    rewrite (server_failure_run (with_unlink_ok w) dirname now m3u8Url fs0 Hok
                                error fs1 Hexec).
    read_trace. repeat apply conj; try reflexivity.
    unfold server_cleanup_effects. rewrite Hfile, Hunlink. find_in.
  - intros message stderr Hsetup Hfirst [content Hfile] Hunlink.
    rewrite (request_error_run w now m3u8Url fs0 Hok ticks message stderr Hsetup Hfirst).
    rewrite (request_error_run (with_unlink_ok w) now m3u8Url fs0 Hok ticks message
                               stderr Hsetup Hfirst).
    read_trace. repeat apply conj; try reflexivity.
    unfold index_cleanup_effects. rewrite Hfile, Hunlink. find_in.
Qed.

(** ** C9: the artifact reference of a success *)

(** C9, as the specification states it, fails on index.js: a conversion that
    ends with ['end'] is answered with a success whose [downloadUrl] is
    [null]. *)
Lemma C9_event_variant_answers_null_downloadUrl :
  let w := example_world example_index_path "mp4 bytes" None None in
  let st := snd (run (Index.request w example_now example_url
                                    [Writes "mp4 bytes"; Emits EvEnd]) ∅) in
  responses (trace st) = [index_success_response]
  /\ is_success index_success_response = true
  /\ downloadUrl_of index_success_response = JNull.
Proof. repeat split; vm_compute; reflexivity. Qed.

(** C9, amended: for every conversion that completes successfully in the
    blocking variant (server.js), the success response carries a non-null
    download URL, ['/downloads/'] followed by the name of the produced
    file; in the event-driven variant (index.js) the success response
    carries [downloadUrl: null]. *)
Theorem C9_downloadUrl_of_success
        (w : World) (dirname : string) (now : Z) (m3u8Url : js_value)
        (fs0 : gmap string string) (ticks : list tick) :
  invalid_url m3u8Url = false ->
  let server := snd (run (Server.convert_m3u8 w dirname now m3u8Url) fs0) in
  let index := snd (run (Index.request w now m3u8Url ticks) fs0) in
  (forall fs1,
      exec_result w (Server.command (url_text m3u8Url) (Server.outputPath dirname now)) fs0
      = (None, fs1) ->
      exists r, responses (trace server) = [r] /\ is_success r = true
                /\ downloadUrl_of r = JString ("/downloads/" +:+ outputFileName now))
  /\ (setup_error w (index_command (url_text m3u8Url) (Index.outputPath now)) = None ->
      first_terminal ticks = Some EvEnd ->
      exists r, responses (trace index) = [r] /\ is_success r = true
                /\ downloadUrl_of r = JNull).
Proof.
  intros Hok. cbv zeta. split.
  - intros fs1 Hexec.
    rewrite (server_success_run w dirname now m3u8Url fs0 Hok fs1 Hexec).
    read_trace. eexists. repeat split.
  - intros Hsetup Hend.
    rewrite (request_end_run w now m3u8Url fs0 Hok ticks Hsetup Hend).
    read_trace. eexists. repeat split.
Qed.

(** ** C8: output paths of distinct requests *)

(** C8 fails on the code: two accepted requests for different urls that are
    handled within the same millisecond are given the same output path, in
    both variants, and index.js starts a child on that path for each. *)
Theorem C8_same_millisecond_same_outputPath :
  let w := example_world example_index_path "mp4 bytes" None None in
  let first := JString "http://a.example/one.m3u8" in
  let second := JString "http://b.example/two.m3u8" in
  let started (m3u8Url : js_value) :=
    List.map (fun e => match e with
                       | ProcStart (FfmpegRun c) => target c
                       | _ => EmptyString
                       end)
             (starts (trace (snd (run (Index.convert_m3u8 w example_now m3u8Url) ∅)))) in
  invalid_url first = false /\ invalid_url second = false
  /\ started first = ["/tmp/converted_1700000000000.mp4"]
  /\ started second = ["/tmp/converted_1700000000000.mp4"]
  /\ Server.outputPath example_dirname example_now
     = "/srv/app/public/downloads/converted_1700000000000.mp4".
Proof. repeat split; vm_compute; reflexivity. Qed.

(** ** The theorems at concrete requests *)

(** C1 at a request whose child writes the file and then ends. *)
Lemma C1_witness_end_after_return :
  let w := example_world example_index_path "mp4 bytes" None None in
  let handler := run (Index.convert_m3u8 w example_now example_url) ∅ in
  let index :=
    run (Index.request w example_now example_url [Writes "mp4 bytes"; Emits EvEnd]) ∅ in
  invalid_url example_url = false
  /\ fst handler = Normal tt
  /\ responses (trace (snd handler)) = []
  /\ length (responses (trace (snd index))) = 1.
Proof.
  intros w handler index.
  destruct (C1_only_event_variant_is_non_blocking
              w example_dirname example_now example_url ∅
              [Writes "mp4 bytes"; Emits EvEnd] eq_refl) as (_ & _ & H).
  destruct (H eq_refl) as (H1 & _ & _ & H4 & _ & H6).
  split; [reflexivity |]. split; [exact H1 |]. split; [exact H4 |].
  apply H6. discriminate.
Defined.

(** C3 at a run in which ['error'] and then ['end'] are both emitted. *)
Lemma C3_witness_error_then_end :
  let w := example_world example_index_path "partial" (Some "Command failed") None in
  let server := run (Server.convert_m3u8 w example_dirname example_now example_url) ∅ in
  let index :=
    run (Index.request w example_now example_url
           [Emits (EvProgress (Some (30 # 1))); Emits (EvError "boom" None); Emits EvEnd])
        ∅ in
  invalid_url example_url = false
  /\ (exists r, responses (trace (snd server)) = [r]
                /\ is_success r = negb (is_failure r))
  /\ (exists r, responses (trace (snd index)) = [r]
                /\ is_success r = negb (is_failure r)).
Proof.
  intros w server index.
  destruct (C3_exactly_one_terminal_outcome
              w example_dirname example_now example_url ∅
              [Emits (EvProgress (Some (30 # 1))); Emits (EvError "boom" None); Emits EvEnd]
              eq_refl) as ((_ & H1) & _ & H3).
  split; [reflexivity |]. split; [exact H1 |]. apply H3. right. discriminate.
Defined.

(** C4 at a failing child that leaves a partial file, in both variants. *)
Lemma C4_witness_file_removed :
  let w := example_world example_server_path "partial" (Some "Command failed") None in
  let st := snd (run (Server.convert_m3u8 w example_dirname example_now example_url) ∅) in
  let w' := example_world example_index_path "partial" None None in
  let st' :=
    snd (run (Index.request w' example_now example_url
                [Writes "partial"; Emits (EvError "boom" None)]) ∅) in
  invalid_url example_url = false
  /\ (responses (trace st) = [server_failure_response]
      /\ fs st !! Server.outputPath example_dirname example_now = None)
  /\ (responses (trace st') = [index_failure_response "boom"]
      /\ fs st' !! Index.outputPath example_now = None).
Proof.
  intros w st w' st'. split; [reflexivity |]. split.
  - exact (proj1 (C4_failed_conversion_removes_file
                    w example_dirname example_now example_url ∅ [] eq_refl)
                 "Command failed" (<[example_server_path := "partial"]> ∅)
                 eq_refl eq_refl).
  - exact (proj2 (C4_failed_conversion_removes_file
                    w' example_dirname example_now example_url ∅
                    [Writes "partial"; Emits (EvError "boom" None)] eq_refl)
                 "boom" None eq_refl eq_refl eq_refl eq_refl).
Defined.

(** C7 at a failing child and a deletion refused with [EPERM]. *)
Lemma C7_witness_unlink_refused :
  let w := example_world example_server_path "partial"
                         (Some "Command failed") (Some "EPERM") in
  let server := run (Server.convert_m3u8 w example_dirname example_now example_url) ∅ in
  let w' := example_world example_index_path "partial" None (Some "EPERM") in
  let index :=
    run (Index.request w' example_now example_url
           [Writes "partial"; Emits (EvError "boom" None)]) ∅ in
  invalid_url example_url = false
  /\ (fst server = Normal tt
      /\ In (Console ConsoleError
               [JString "[Backend] Error deleting incomplete file: EPERM"])
            (trace (snd server))
      /\ responses (trace (snd server)) = [server_failure_response])
  /\ (fst index = Normal tt
      /\ In (Console ConsoleError [JString "Error deleting tmp file: EPERM"])
            (trace (snd index))
      /\ responses (trace (snd index)) = [index_failure_response "boom"]).
Proof.
  intros w server w' index. split; [reflexivity |]. split.
  - assert (Hfile : is_Some ((<[example_server_path := "partial"]> ∅ : gmap string string)
                             !! Server.outputPath example_dirname example_now))
      by (exists "partial"; vm_compute; reflexivity).
    destruct (proj1 (C7_deletion_error_swallowed
                       w example_dirname example_now example_url ∅ [] "EPERM" eq_refl)
                    "Command failed" (<[example_server_path := "partial"]> ∅)
                    eq_refl Hfile eq_refl) as (H1 & H2 & H3 & _).
    exact (conj H1 (conj H2 H3)).
  - assert (Hfile : is_Some ((<[Index.outputPath example_now := "partial"]> ∅
                              : gmap string string)
                             !! Index.outputPath example_now))
      by (exists "partial"; vm_compute; reflexivity).
    destruct (proj2 (C7_deletion_error_swallowed
                       w' example_dirname example_now example_url ∅
                       [Writes "partial"; Emits (EvError "boom" None)] "EPERM" eq_refl)
                    "boom" None eq_refl eq_refl Hfile eq_refl) as (H1 & H2 & H3 & _).
    exact (conj H1 (conj H2 H3)).
Defined.

(** C9 at a successful conversion, in both variants. *)
Lemma C9_witness_downloadUrl :
  let w := example_world example_server_path "mp4 bytes" None None in
  let server :=
    snd (run (Server.convert_m3u8 w example_dirname example_now example_url) ∅) in
  let index :=
    snd (run (Index.request w example_now example_url [Emits EvEnd]) ∅) in
  invalid_url example_url = false
  /\ (exists r, responses (trace server) = [r] /\ is_success r = true
                /\ downloadUrl_of r = JString "/downloads/converted_1700000000000.mp4")
  /\ (exists r, responses (trace index) = [r] /\ is_success r = true
                /\ downloadUrl_of r = JNull).
Proof.
  intros w server index.
  destruct (C9_downloadUrl_of_success
              w example_dirname example_now example_url ∅ [Emits EvEnd] eq_refl)
    as [H1 H2].
  split; [reflexivity |].
  split; [exact (H1 (<[example_server_path := "mp4 bytes"]> ∅) eq_refl)
         | exact (H2 eq_refl eq_refl)].
Defined.

(** C10 at a successful conversion followed by a late ['error']. *)
Lemma C10_witness_file_kept :
  let w := example_world example_server_path "mp4 bytes" None None in
  let server :=
    snd (run (Server.convert_m3u8 w example_dirname example_now example_url) ∅) in
  let index :=
    snd (run (Index.request w example_now example_url
                [Writes "mp4 bytes"; Emits EvEnd; Emits (EvError "late" None)]) ∅) in
  invalid_url example_url = false
  /\ (unlinks (trace server) = []
      /\ fs server = <[example_server_path := "mp4 bytes"]> ∅
      /\ responses (trace server)
         = [Respond 200
              [("success", JBool true);
               ("downloadUrl",
                JString ("/downloads/"
                         +:+ basename (Server.outputPath example_dirname example_now)))]])
  /\ (unlinks (trace index) = []
      /\ fs index = <[Index.outputPath example_now := "mp4 bytes"]> ∅
      /\ responses (trace index) = [index_success_response]).
Proof.
  intros w server index.
  destruct (C10_success_path_leaves_file
              w example_dirname example_now example_url ∅
              [Writes "mp4 bytes"; Emits EvEnd; Emits (EvError "late" None)] eq_refl)
    as (H1 & H2 & _).
  split; [reflexivity |].
  split; [exact (H1 (<[example_server_path := "mp4 bytes"]> ∅) eq_refl)
         | exact (H2 eq_refl eq_refl)].
Defined.

(** * Further properties of the handlers *)

(** ** Where the output file lies *)

Section Normalized.

Lemma segments_no_slashes (s : string) :
  forallb (fun seg => negb (has_slash seg)) (segments s) = true.
Proof.
  induction s as [|c s IH]; [reflexivity |].
  cbn [segments]. destruct (Ascii.eqb c slash) eqn:Ec; [exact IH |].
  pose proof (segments_not_nil s) as Hne.
  destruct (segments s) as [|h t]; [congruence |].
  cbn [forallb has_slash] in *. now rewrite Ec.
Qed.

Lemma segments_join_slash (ks : list string) :
  ks <> [] -> forallb (fun seg => negb (has_slash seg)) ks = true ->
  segments (join_slash ks) = ks.
Proof.
  induction ks as [|k ks IH]; [congruence |]. intros _ H.
  cbn [forallb] in H. apply andb_true_iff in H as [Hk Hks].
  apply negb_true_iff in Hk.
  destruct ks as [|k' ks]; [now apply segments_no_slash |].
  change (join_slash (k :: k' :: ks)) with (k +:+ String slash (join_slash (k' :: ks))).
  rewrite segments_app_slash, (segments_no_slash _ Hk), IH by (congruence || assumption).
  reflexivity.
Qed.

Variable above : bool.

Lemma clean_step (stack : list string) (seg : string) :
  clean above stack = true -> has_slash seg = false ->
  clean above (normalize_step above stack seg) = true.
Proof.
  intros Hc Hs. unfold normalize_step.
  destruct (String.eqb_spec seg EmptyString) as [->|Hn]; [exact Hc |].
  destruct (String.eqb_spec seg ".") as [->|Hd]; [exact Hc |].
  cbn [orb].
  destruct (String.eqb_spec seg "..") as [->|Hdd].
  - destruct stack as [|top rest].
    + destruct above; reflexivity.
    + destruct (String.eqb_spec top "..") as [->|Ht].
      * destruct above; [| exact Hc].
        change (clean true (".." :: ".." :: rest))
          with (forallb (String.eqb "..") rest && clean true (".." :: rest)).
        rewrite Hc, andb_true_r.
        change (clean true (".." :: rest))
          with (forallb (String.eqb "..") rest && clean true rest) in Hc.
        now apply andb_true_iff in Hc as [Hc _].
      * cbn [clean] in Hc. apply andb_true_iff in Hc as [_ Hc]. exact Hc.
  - cbn [clean]. rewrite Hs.
    destruct (String.eqb_spec seg EmptyString); [congruence |].
    destruct (String.eqb_spec seg "."); [congruence |].
    destruct (String.eqb_spec seg ".."); [congruence |].
    exact Hc.
Qed.

Lemma clean_fold (segs stack : list string) :
  clean above stack = true ->
  forallb (fun seg => negb (has_slash seg)) segs = true ->
  clean above (fold_left (normalize_step above) segs stack) = true.
Proof.
  revert stack. induction segs as [|seg segs IH]; intros stack Hc Hs; [exact Hc |].
  cbn [forallb] in Hs. apply andb_true_iff in Hs as [Hseg Hs].
  apply negb_true_iff in Hseg. cbn [fold_left].
  apply IH; [now apply clean_step | exact Hs].
Qed.

Lemma clean_no_slashes (stack : list string) :
  clean above stack = true ->
  forallb (fun seg => negb (has_slash seg)) stack = true.
Proof.
  induction stack as [|top rest IH]; [reflexivity |]. cbn [clean forallb].
  intros H. apply andb_true_iff in H as [H Hrest].
  apply andb_true_iff in H as [H _]. apply andb_true_iff in H as [_ Hs].
  now rewrite Hs, IH.
Qed.

(** Normalizing the kept segments again keeps them all. *)
Lemma fold_clean (stack : list string) :
  clean above stack = true ->
  fold_left (normalize_step above) (rev stack) [] = stack.
Proof.
  induction stack as [|top rest IH]; [reflexivity |]. intros Hc.
  cbn [rev]. rewrite fold_left_app. cbn [fold_left].
  cbn [clean] in Hc. apply andb_true_iff in Hc as [Hc Hrest].
  apply andb_true_iff in Hc as [Hc Hup]. apply andb_true_iff in Hc as [Hc _].
  apply andb_true_iff in Hc as [Hn Hd].
  apply negb_true_iff in Hn, Hd.
  rewrite (IH Hrest). unfold normalize_step. rewrite Hn, Hd. cbn [orb].
  destruct (String.eqb top "..") eqn:Et; [| reflexivity].
  apply String.eqb_eq in Et. subst top.
  apply andb_true_iff in Hup as [-> Hall].
  destruct rest as [|r rest']; [reflexivity |].
  cbn [forallb] in Hall. apply andb_true_iff in Hall as [Hr _].
  rewrite String.eqb_sym in Hr. now rewrite Hr.
Qed.

End Normalized.

Section InsideDirectory.

Variables file last_segment : string.
Hypothesis file_plain : is_plain file = true.
Hypothesis last_plain : is_plain last_segment = true.

(** A normalized path that ends in a name, extended by a name, is already
    normalized. *)
Lemma normalize_normalize_slash (p : string) (xs : list string) :
  segments p = xs ++ [last_segment] ->
  ends_with_slash p = false ->
  normalize (normalize p +:+ String slash file) = normalize p +:+ String slash file.
Proof.
  intros Hseg Hend.
  destruct (plain_facts file file_plain) as (Hf1 & Hf2 & Hf3 & Hf4).
  destruct (plain_facts last_segment last_plain) as (Hl1 & Hl2 & Hl3 & Hl4).
  set (abs := String.prefix "/" p).
  set (stack := fold_left (normalize_step (negb abs)) (segments p) []).
  assert (Hclean : clean (negb abs) stack = true)
    by (apply clean_fold; [reflexivity | apply segments_no_slashes]).
  assert (Hstack : exists rest, stack = last_segment :: rest).
  { unfold stack. rewrite Hseg, fold_left_app. cbn [fold_left].
    rewrite (normalize_step_plain _ last_plain). eauto. }
  destruct Hstack as [rest Hstack].
  assert (Hp : String.eqb p EmptyString = false).
  { apply String.eqb_neq. intros ->. simpl in Hseg.
    destruct xs as [|? [|? ?]]; simpl in Hseg; try discriminate. }
  assert (Hnorm : normalize p
                  = (if abs then "/" else EmptyString) +:+ join_slash (rev stack)).
  { unfold normalize. rewrite Hp, Hend. unfold normalizeString. fold abs. fold stack.
    destruct (String.eqb_spec (join_slash (rev stack)) EmptyString) as [E|_].
    - rewrite Hstack in E. cbn [rev] in E. rewrite join_slash_snoc in E.
      destruct (rev rest); [subst; discriminate |].
      apply append_eq_nil in E. discriminate.
    - now rewrite append_nil_r. }
  assert (Hks : exists k ks, rev stack = k :: ks).
  { rewrite Hstack. cbn [rev]. destruct (rev rest) as [|k ks]; cbn; eauto. }
  destruct Hks as (k & ks & Hks).
  assert (Hns : forallb (fun seg => negb (has_slash seg)) (rev stack) = true).
  { apply forallb_forall. intros x Hx. apply in_rev in Hx.
    pose proof (clean_no_slashes _ _ Hclean) as Hall.
    rewrite forallb_forall in Hall. now apply Hall. }
  assert (Hk : exists c k', k = String c k' /\ Ascii.eqb c slash = false).
  { assert (Hin : In k stack) by (apply in_rev; rewrite Hks; now left).
    assert (Hkc : clean (negb abs) [k] = true).
    { clear - Hclean Hin. induction stack as [|top rest IH]; [destruct Hin |].
      cbn [clean] in Hclean. apply andb_true_iff in Hclean as [H Hrest].
      destruct Hin as [->|Hin]; [| now apply IH].
      cbn [clean]. rewrite andb_true_r.
      apply andb_true_iff in H as [H Hup]. rewrite H.
      destruct (String.eqb k ".."); [| reflexivity].
      apply andb_true_iff in Hup as [-> _]. reflexivity. }
    cbn [clean] in Hkc. rewrite andb_true_r in Hkc.
    apply andb_true_iff in Hkc as [Hkc _]. apply andb_true_iff in Hkc as [Hkc Hs].
    apply andb_true_iff in Hkc as [Hkn _].
    destruct k as [|c k']; [discriminate |].
    cbn [has_slash] in Hs. apply negb_true_iff, orb_false_iff in Hs as [Hc _].
    eauto. }
  destruct Hk as (c & k' & -> & Hc).
  assert (HsegP : segments (normalize p) = (if abs then [EmptyString] else []) ++ rev stack).
  { rewrite Hnorm. destruct abs.
    - change ("/" +:+ join_slash (rev stack)) with (String slash (join_slash (rev stack))).
      cbn [segments]. rewrite Ascii.eqb_refl.
      rewrite segments_join_slash; [reflexivity | rewrite Hks; discriminate | exact Hns].
    - cbn [String.append app].
      rewrite segments_join_slash; [reflexivity | rewrite Hks; discriminate | exact Hns]. }
  assert (Habs : String.prefix "/" (normalize p +:+ String slash file) = abs).
  { rewrite Hnorm. destruct abs; [rewrite append_assoc; apply prefix_append_self |].
    cbn [String.append]. rewrite Hks.
    assert (E : exists t, join_slash (String c k' :: ks) +:+ String slash file
                          = String c t).
    { destruct ks; cbn [join_slash]; cbn [String.append]; eauto. }
    destruct E as [t ->]. cbn [String.prefix].
    destruct (ascii_dec "/" c) as [<-|_]; [discriminate | reflexivity]. }
  assert (HY : String.eqb (normalize p +:+ String slash file) EmptyString = false).
  { apply String.eqb_neq. intros E. apply append_eq_nil in E. discriminate. }
  assert (HendY : ends_with_slash (normalize p +:+ String slash file) = false).
  { rewrite ends_with_slash_append by discriminate.
    destruct file as [|d f]; [discriminate |].
    change (ends_with_slash (String slash (String d f)))
      with (ends_with_slash (String d f)).
    now apply ends_with_slash_no_slash. }
  unfold normalize at 1. rewrite HY, HendY, Habs. unfold normalizeString.
  rewrite segments_app_slash, (segments_no_slash _ Hf2), HsegP.
  rewrite !fold_left_app. cbn [fold_left].
  rewrite (normalize_step_plain _ file_plain).
  assert (Hfold : fold_left (normalize_step (negb abs))
                            (if abs then [EmptyString] else []) [] = []).
  { now destruct abs. }
  rewrite Hfold, (fold_clean _ _ Hclean). cbn [rev].
  rewrite join_slash_snoc, Hks. rewrite <- Hks.
  destruct (String.eqb_spec (join_slash (rev stack) +:+ String slash file) EmptyString)
    as [E|_]; [apply append_eq_nil in E; discriminate |].
  rewrite append_nil_r, Hnorm, append_assoc. reflexivity.
Qed.

End InsideDirectory.

(** ** Whole runs *)

Section WholeRuns.

Variables (w : World) (dirname : string) (now : Z) (m3u8Url : js_value).
Variable fs0 : gmap string string.
Hypothesis accepted : invalid_url m3u8Url = false.

Lemma server_run_final :
  run (Server.convert_m3u8 w dirname now m3u8Url) fs0
  = (Normal tt, server_final w dirname now m3u8Url fs0).
Proof.
  unfold server_final.
  destruct (exec_result w _ fs0) as [[error|] fs1] eqn:Hexec.
  - exact (server_failure_run w dirname now m3u8Url fs0 accepted error fs1 Hexec).
  - exact (server_success_run w dirname now m3u8Url fs0 accepted fs1 Hexec).
Qed.

Lemma index_run_final (ticks : list tick) :
  run (Index.request w now m3u8Url ticks) fs0
  = (Normal tt, index_final w now m3u8Url fs0 ticks).
Proof.
  unfold index_final. cbv zeta.
  destruct (setup_error w _) as [error|] eqn:Hsetup.
  - exact (request_setup_failed_run w now m3u8Url fs0 accepted ticks error Hsetup).
  - destruct (first_terminal ticks) as [[percent|message stderr|]|] eqn:Hfirst.
    + now destruct (first_terminal_is_terminal ticks percent).
    + rewrite (request_error_run w now m3u8Url fs0 accepted ticks message stderr
                                 Hsetup Hfirst).
      now rewrite <- !app_assoc.
    + rewrite (request_end_run w now m3u8Url fs0 accepted ticks Hsetup Hfirst).
      now rewrite <- !app_assoc.
    + rewrite (request_quiet_run w now m3u8Url fs0 accepted ticks Hsetup Hfirst).
      now rewrite <- !app_assoc.
Qed.

End WholeRuns.

(** ** Ticks and what they leave *)

Section Ticks.

Lemma first_terminal_without_progress (ticks : list tick) :
  first_terminal (without_progress ticks) = first_terminal ticks.
Proof.
  induction ticks as [|t ticks IH]; [reflexivity |].
  destruct t as [content|[percent|message stderr|]]; cbn; auto.
Qed.

Lemma before_terminal_without_progress (ticks : list tick) :
  before_terminal (without_progress ticks) = without_progress (before_terminal ticks).
Proof.
  induction ticks as [|t ticks IH]; [reflexivity |].
  destruct t as [content|[percent|message stderr|]]; cbn;
    try reflexivity; try exact IH; f_equal; exact IH.
Qed.

Lemma after_terminal_without_progress (ticks : list tick) :
  after_terminal (without_progress ticks) = without_progress (after_terminal ticks).
Proof.
  induction ticks as [|t ticks IH]; [reflexivity |].
  destruct t as [content|[percent|message stderr|]]; cbn; auto.
Qed.

Lemma child_fs_without_progress (path : string) (ticks : list tick)
      (files : gmap string string) :
  child_fs path (without_progress ticks) files = child_fs path ticks files.
Proof.
  revert files. induction ticks as [|t ticks IH]; intros files; [reflexivity |].
  destruct t as [content|[percent|message stderr|]]; cbn; auto.
Qed.

Lemma child_fs_other (path other : string) (ticks : list tick)
      (files : gmap string string) :
  other <> path -> child_fs path ticks files !! other = files !! other.
Proof.
  intros Hne. revert files. induction ticks as [|t ticks IH]; intros files; [reflexivity |].
  destruct t as [content|e]; cbn [child_fs]; rewrite IH; [| reflexivity].
  apply lookup_insert_ne. congruence.
Qed.

Lemma after_cleanup_other (w : World) (path other : string) (files : gmap string string) :
  other <> path -> after_cleanup w path files !! other = files !! other.
Proof.
  intros Hne. unfold after_cleanup.
  destruct (files !! path); [destruct (unlink_error w path) |]; try reflexivity.
  apply lookup_delete_ne. congruence.
Qed.

Lemma progress_logs_split (ticks : list tick) :
  progress_logs ticks
  = progress_logs (before_terminal ticks) ++ progress_logs (after_terminal ticks).
Proof.
  induction ticks as [|t ticks IH]; [reflexivity |].
  destruct t as [content|[percent|message stderr|]]; cbn; auto.
  now rewrite IH, app_assoc.
Qed.

Lemma terminal_snoc (pre : list tick) (e : ffmpeg_event) :
  first_terminal pre = None -> first_terminal [Emits e] = Some e ->
  first_terminal (pre ++ [Emits e]) = Some e
  /\ before_terminal (pre ++ [Emits e]) = pre
  /\ after_terminal (pre ++ [Emits e]) = [].
Proof.
  intros Hpre He. induction pre as [|t pre IH].
  - destruct e as [percent|message stderr|]; [discriminate | |]; now cbn.
  - destruct t as [content|[percent|message stderr|]]; try discriminate;
      cbn in Hpre |- *; destruct (IH Hpre) as (I1 & I2 & I3); now rewrite I1, I2, I3.
Qed.

Lemma beyond_console_app (a b : list effect) :
  beyond_console (a ++ b) = beyond_console a ++ beyond_console b.
Proof. apply List.filter_app. Qed.

Lemma beyond_console_progress_logs (ticks : list tick) :
  beyond_console (progress_logs ticks) = [].
Proof.
  induction ticks as [|t ticks IH]; [reflexivity |].
  destruct t as [content|[percent|message stderr|]]; cbn [progress_logs]; auto.
  rewrite beyond_console_app, IH, app_nil_r. unfold progress_log.
  destruct percent as [p|]; [destruct (negb _) |]; reflexivity.
Qed.

Lemma progress_logs_without_progress (ticks : list tick) :
  progress_logs (without_progress ticks) = [].
Proof.
  induction ticks as [|t ticks IH]; [reflexivity |].
  destruct t as [content|[percent|message stderr|]]; cbn; auto.
Qed.

End Ticks.

(** ** X1: ['progress'] events only log *)

(** X1: the ['progress'] listener of index.js only writes to the console.
    For every request, dropping all ['progress'] events from what the child
    emits changes neither how the run completes, nor the file system, nor the
    response state, nor any effect other than console output. *)
Theorem X1_progress_events_only_log
        (w : World) (now : Z) (m3u8Url : js_value)
        (fs0 : gmap string string) (ticks : list tick) :
  let a := run (Index.request w now m3u8Url ticks) fs0 in
  let b := run (Index.request w now m3u8Url (without_progress ticks)) fs0 in
  fst a = fst b
  /\ fs (snd a) = fs (snd b)
  /\ statusCode (snd a) = statusCode (snd b)
  /\ headersSent (snd a) = headersSent (snd b)
  /\ responseSent (snd a) = responseSent (snd b)
  /\ beyond_console (trace (snd a)) = beyond_console (trace (snd b)).
Proof.
  cbv zeta. destruct (invalid_url m3u8Url) eqn:Hurl.
  - rewrite !(index_rejected_request w now m3u8Url fs0 _ Hurl).
    repeat apply conj; reflexivity.
  - rewrite !(index_run_final w now m3u8Url fs0 Hurl). unfold index_final. cbv zeta.
    rewrite first_terminal_without_progress, before_terminal_without_progress,
      after_terminal_without_progress, !child_fs_without_progress.
    destruct (setup_error w _) as [error|];
      [| destruct (first_terminal ticks) as [[percent|message stderr|]|]];
      cbn [fst snd fs statusCode headersSent responseSent trace];
      rewrite ?child_fs_without_progress, ?beyond_console_app,
        ?beyond_console_progress_logs;
      repeat apply conj; reflexivity.
Qed.

(** ** X2: what comes after the first ['error'] or ['end'] *)

(** X2: in index.js the first ['error'] or ['end'] settles the request.
    Whatever the child emits afterwards, a contradicting ['end'] or
    ['error'] included, adds nothing to the run but the console lines of
    later ['progress'] events and the child's own writes: no response, no
    deletion, not even a log line for a late ['error']. *)
Theorem X2_later_events_only_log
        (w : World) (now : Z) (m3u8Url : js_value)
        (fs0 : gmap string string) (ticks : list tick) (e : ffmpeg_event) :
  invalid_url m3u8Url = false ->
  first_terminal ticks = Some e ->
  let a := snd (run (Index.request w now m3u8Url ticks) fs0) in
  let b := snd (run (Index.request w now m3u8Url (before_terminal ticks ++ [Emits e]))
                    fs0) in
  trace a = trace b ++ progress_logs (after_terminal ticks)
  /\ fs a = child_fs (Index.outputPath now) (after_terminal ticks) (fs b)
  /\ statusCode a = statusCode b
  /\ headersSent a = headersSent b
  /\ responseSent a = responseSent b.
Proof.
  intros Hurl Hfirst. cbv zeta.
  destruct (split_at_terminal _ _ Hfirst) as [_ Hquiet].
  assert (He : first_terminal [Emits e] = Some e).
  { destruct e as [percent|message stderr|]; try reflexivity.
    now destruct (first_terminal_is_terminal ticks percent). }
  destruct (terminal_snoc _ _ Hquiet He) as (T1 & T2 & T3).
  rewrite !(index_run_final w now m3u8Url fs0 Hurl). unfold index_final. cbv zeta.
  rewrite T1, T2, T3, Hfirst.
  destruct (setup_error w _) as [error|];
    [| destruct e as [percent|message stderr|]];
    cbn [fst snd fs statusCode headersSent responseSent trace progress_logs child_fs];
    rewrite ?app_nil_r, <- ?app_assoc.
  - repeat apply conj; try reflexivity.
    + rewrite (progress_logs_split ticks).
      assert (E : progress_logs (before_terminal ticks ++ [Emits e])
                  = progress_logs (before_terminal ticks)).
      { rewrite (progress_logs_split (before_terminal ticks ++ [Emits e])), T2, T3.
        apply app_nil_r. }
      rewrite E. cbn [app]. reflexivity.
    + rewrite (child_fs_split _ ticks).
      rewrite (child_fs_split _ (before_terminal ticks ++ [Emits e])), T2, T3.
      reflexivity.
  - now destruct (first_terminal_is_terminal ticks percent).
  - repeat apply conj; reflexivity.
  - repeat apply conj; try reflexivity.
    rewrite (child_fs_split _ ticks).
    rewrite (child_fs_split _ (before_terminal ticks ++ [Emits EvEnd])), T2, T3.
    reflexivity.
Qed.

(** X2 at a run in which ['end'] is followed by ['progress'] and ['error']. *)
Lemma X2_witness_error_after_end :
  let w := example_world example_index_path "mp4 bytes" None None in
  let a := snd (run (Index.request w example_now example_url
                       [Writes "mp4 bytes"; Emits EvEnd;
                        Emits (EvProgress (Some (99 # 1)));
                        Emits (EvError "late" None)]) ∅) in
  let b := snd (run (Index.request w example_now example_url
                       [Writes "mp4 bytes"; Emits EvEnd]) ∅) in
  trace a = trace b ++ [Console ConsoleLog [JString "[FFmpeg] Processing: 99% done"]]
  /\ fs a = fs b.
Proof.
  intros w a b.
  destruct (X2_later_events_only_log
              w example_now example_url ∅
              [Writes "mp4 bytes"; Emits EvEnd; Emits (EvProgress (Some (99 # 1)));
               Emits (EvError "late" None)]
              EvEnd eq_refl eq_refl) as (H1 & H2 & _).
  split; [exact H1 | exact H2].
Defined.

(** ** X3: the handlers touch one file only *)

Section Frame.

Variables (w : World) (path : string) (files : gmap string string).

Lemma unlinks_server_cleanup :
  unlinks (server_cleanup_effects w path files)
  = match files !! path with Some _ => [Unlink path] | None => [] end.
Proof.
  unfold server_cleanup_effects.
  destruct (files !! path); [destruct (unlink_error w path) |]; reflexivity.
Qed.

Lemma unlinks_index_cleanup :
  unlinks (index_cleanup_effects w path files)
  = match files !! path with Some _ => [Unlink path] | None => [] end.
Proof.
  unfold index_cleanup_effects.
  destruct (files !! path); [destruct (unlink_error w path) |]; reflexivity.
Qed.

End Frame.

(** X3: for every accepted request, the only file a handler itself creates,
    changes or removes is the one at the output path. Every other path is
    left as the child process left it (server.js) or as it was (index.js),
    [unlinkSync] is called at most once per request, and only on the output
    path. *)
Theorem X3_only_outputPath_touched
        (w : World) (dirname : string) (now : Z) (m3u8Url : js_value)
        (fs0 : gmap string string) (ticks : list tick) (other : string) :
  invalid_url m3u8Url = false ->
  let server := snd (run (Server.convert_m3u8 w dirname now m3u8Url) fs0) in
  let index := snd (run (Index.request w now m3u8Url ticks) fs0) in
  let left_by_child :=
    snd (exec_result w (Server.command (url_text m3u8Url)
                                       (Server.outputPath dirname now)) fs0) in
  (other <> Server.outputPath dirname now -> fs server !! other = left_by_child !! other)
  /\ (other <> Index.outputPath now -> fs index !! other = fs0 !! other)
  /\ (unlinks (trace server) = []
      \/ unlinks (trace server) = [Unlink (Server.outputPath dirname now)])
  /\ (unlinks (trace index) = []
      \/ unlinks (trace index) = [Unlink (Index.outputPath now)]).
Proof.
  intros Hurl. cbv zeta.
  rewrite (server_unlinks w dirname now m3u8Url fs0 Hurl).
  rewrite (index_unlinks w now m3u8Url fs0 Hurl ticks).
  rewrite (server_run_final w dirname now m3u8Url fs0 Hurl).
  rewrite (index_run_final w now m3u8Url fs0 Hurl). unfold server_final, index_final.
  cbv zeta. repeat apply conj.
  - intros Hne. destruct (exec_result w _ fs0) as [[error|] fs1]; cbn; [| reflexivity].
    now apply after_cleanup_other.
  - intros Hne.
    destruct (setup_error w _) as [error|];
      [| destruct (first_terminal ticks) as [[percent|message stderr|]|]];
      cbn [snd fs]; rewrite ?child_fs_other by exact Hne; try reflexivity.
    rewrite after_cleanup_other by exact Hne. now apply child_fs_other.
  - destruct (exec_result w _ fs0) as [[error|] fs1]; [| now left].
    rewrite unlinks_server_cleanup. destruct (fs1 !! _); auto.
  - destruct (setup_error w _) as [error|]; [now left |].
    destruct (first_terminal ticks) as [[percent|message stderr|]|]; try now left.
    rewrite unlinks_index_cleanup. destruct (_ !! _); auto.
Qed.

(** X3 at a failing child, looking at a neighbouring file. *)
Lemma X3_witness_neighbour_kept :
  let w := example_world example_index_path "partial" None None in
  let files : gmap string string := {["/tmp/other.mp4" := "kept"]} in
  let index :=
    snd (run (Index.request w example_now example_url
                [Writes "partial"; Emits (EvError "boom" None)]) files) in
  fs index !! "/tmp/other.mp4" = Some "kept".
Proof.
  intros w files index.
  destruct (X3_only_outputPath_touched
              w example_dirname example_now example_url files
              [Writes "partial"; Emits (EvError "boom" None)] "/tmp/other.mp4" eq_refl)
    as (_ & H & _).
  transitivity (files !! "/tmp/other.mp4").
  - apply H. vm_compute. discriminate.
  - vm_compute. reflexivity.
Defined.

(** ** X4 and X5: the deletion and what is logged about it *)

(** X4: after a failed conversion [unlinkSync] is called exactly when
    [existsSync] finds a file at the output path, so it is never called on a
    missing file; when the child left no file there, the handler leaves the
    file system alone. *)
Theorem X4_deletion_only_of_existing_file
        (w : World) (dirname : string) (now : Z) (m3u8Url : js_value)
        (fs0 : gmap string string) (ticks : list tick) :
  invalid_url m3u8Url = false ->
  let server := snd (run (Server.convert_m3u8 w dirname now m3u8Url) fs0) in
  let index := snd (run (Index.request w now m3u8Url ticks) fs0) in
  (forall error fs1,
      exec_result w (Server.command (url_text m3u8Url) (Server.outputPath dirname now)) fs0
      = (Some error, fs1) ->
      unlinks (trace server)
      = match fs1 !! Server.outputPath dirname now with
        | Some _ => [Unlink (Server.outputPath dirname now)]
        | None => []
        end
      /\ (fs1 !! Server.outputPath dirname now = None -> fs server = fs1))
  /\ (forall message stderr,
      setup_error w (index_command (url_text m3u8Url) (Index.outputPath now)) = None ->
      first_terminal ticks = Some (EvError message stderr) ->
      let at_error := child_fs (Index.outputPath now) (before_terminal ticks) fs0 in
      unlinks (trace index)
      = match at_error !! Index.outputPath now with
        | Some _ => [Unlink (Index.outputPath now)]
        | None => []
        end
      /\ (at_error !! Index.outputPath now = None ->
          fs index = child_fs (Index.outputPath now) (after_terminal ticks) at_error)).
Proof.
  intros Hurl. cbv zeta. split.
  - intros error fs1 Hexec.
    rewrite (server_unlinks w dirname now m3u8Url fs0 Hurl).
    rewrite (server_run_final w dirname now m3u8Url fs0 Hurl). unfold server_final.
    cbv zeta. rewrite Hexec. cbn [snd fs]. split; [apply unlinks_server_cleanup |].
    intros Hnone. unfold after_cleanup. now rewrite Hnone.
  - intros message stderr Hsetup Hfirst.
    rewrite (index_unlinks w now m3u8Url fs0 Hurl ticks).
    rewrite (index_run_final w now m3u8Url fs0 Hurl). unfold index_final.
    cbv zeta. rewrite Hsetup, Hfirst. cbn [snd fs].
    split; [apply unlinks_index_cleanup |].
    intros Hnone. unfold after_cleanup. now rewrite Hnone.
Qed.

(** X4 at a child that fails before it has written anything. *)
Lemma X4_witness_nothing_written :
  let w := mkWorld (fun _ files => (Some "Command failed", files))
                   (fun _ => None) (fun _ => None) in
  let server :=
    snd (run (Server.convert_m3u8 w example_dirname example_now example_url) ∅) in
  let index :=
    snd (run (Index.request w example_now example_url [Emits (EvError "boom" None)]) ∅) in
  (unlinks (trace server) = [] /\ fs server = ∅)
  /\ (unlinks (trace index) = [] /\ fs index = ∅).
Proof.
  intros w server index.
  destruct (X4_deletion_only_of_existing_file
              w example_dirname example_now example_url ∅
              [Emits (EvError "boom" None)] eq_refl) as [H1 H2].
  destruct (H1 "Command failed" ∅ eq_refl) as [H1a H1b].
  destruct (H2 "boom" None eq_refl eq_refl) as [H2a H2b].
  split; split.
  - exact H1a.
  - apply H1b. apply lookup_empty.
  - exact H2a.
  - apply H2b. apply lookup_empty.
Defined.

Ltac in_trace :=
  repeat match goal with
         | H : In _ [] |- _ => destruct H
         | H : In _ (_ :: _) |- _ => destruct H as [H|H]
         | H : In _ (_ ++ _) |- _ => apply in_app_or in H; destruct H as [H|H]
         end.

(** X5: what server.js logs about the deletion is what happened. After a
    failed conversion the line [Deleted incomplete file on error] is logged
    exactly when a file was at the output path and [unlinkSync] removed it
    (and then no file is there); the line [Error deleting incomplete file]
    with message [e] is logged exactly when a file was there and
    [unlinkSync] threw [e] (and then the file system is as the child left
    it). *)
Theorem X5_deletion_logs_tell_what_happened
        (w : World) (dirname : string) (now : Z) (m3u8Url : js_value)
        (fs0 fs1 : gmap string string) (error e : string) :
  invalid_url m3u8Url = false ->
  exec_result w (Server.command (url_text m3u8Url) (Server.outputPath dirname now)) fs0
  = (Some error, fs1) ->
  let out := Server.outputPath dirname now in
  let server := snd (run (Server.convert_m3u8 w dirname now m3u8Url) fs0) in
  let deleted :=
    Console ConsoleLog [JString ("[Backend] Deleted incomplete file on error: " +:+ out)] in
  let not_deleted :=
    Console ConsoleError [JString ("[Backend] Error deleting incomplete file: " +:+ e)] in
  (In deleted (trace server) <-> is_Some (fs1 !! out) /\ unlink_error w out = None)
  /\ (In deleted (trace server) -> fs server !! out = None)
  /\ (In not_deleted (trace server) <-> is_Some (fs1 !! out) /\ unlink_error w out = Some e)
  /\ (In not_deleted (trace server) -> fs server = fs1).
Proof.
  intros Hurl Hexec. cbv zeta.
  rewrite (server_failure_run w dirname now m3u8Url fs0 Hurl error fs1 Hexec).
  cbn [snd fs trace]. unfold server_cleanup_effects, after_cleanup, server_prelude.
  destruct (fs1 !! Server.outputPath dirname now) as [content|] eqn:Hfile;
    [destruct (unlink_error w (Server.outputPath dirname now)) as [e0|] eqn:Hunlink |].
  - split; [| split; [| split]].
    + split; [intros H; in_trace; simplify_eq/= | intros [_ H]; discriminate].
    + intros H; in_trace; simplify_eq/=.
    + split.
      * intros H; in_trace; simplify_eq/=. split; [eauto | reflexivity].
      * intros [_ H]. injection H as ->. find_in.
    + reflexivity.
  - split; [| split; [| split]].
    + split; [intros _; split; [eauto | reflexivity] | intros _; find_in].
    + intros _. apply lookup_delete_eq.
    + split; [intros H; in_trace; simplify_eq/= | intros [_ H]; discriminate].
    + intros H; in_trace; simplify_eq/=.
  - split; [| split; [| split]].
    + split; [intros H; in_trace; simplify_eq/= | intros [[? H] _]; discriminate].
    + intros H; in_trace; simplify_eq/=.
    + split; [intros H; in_trace; simplify_eq/= | intros [[? H] _]; discriminate].
    + reflexivity.
Qed.

(** X5 at a deletion refused with [EPERM]. *)
Lemma X5_witness_refused_deletion_logged :
  let w := example_world example_server_path "partial"
                         (Some "Command failed") (Some "EPERM") in
  let server :=
    snd (run (Server.convert_m3u8 w example_dirname example_now example_url) ∅) in
  In (Console ConsoleError [JString "[Backend] Error deleting incomplete file: EPERM"])
     (trace server)
  /\ fs server = <[example_server_path := "partial"]> ∅.
Proof.
  intros w server.
  destruct (X5_deletion_logs_tell_what_happened
              w example_dirname example_now example_url ∅
              (<[example_server_path := "partial"]> ∅) "Command failed" "EPERM"
              eq_refl eq_refl) as (_ & _ & H3 & H4).
  assert (Hin : In (Console ConsoleError
                      [JString "[Backend] Error deleting incomplete file: EPERM"])
                   (trace server)).
  { apply H3. split; [exists "partial"; vm_compute; reflexivity | reflexivity]. }
  split; [exact Hin | exact (H4 Hin)].
Defined.

(** ** X6: a set-up that throws *)

(** X6: when setting up the fluent-ffmpeg command throws, index.js answers
    with status 500 and the message [Server error setting up conversion:]
    followed by the error's message, starts no child, calls [unlinkSync]
    never, leaves the file system to the child alone, and no later event
    changes that answer. *)
Theorem X6_setup_exception
        (w : World) (now : Z) (m3u8Url : js_value)
        (fs0 : gmap string string) (ticks : list tick) (error : string) :
  invalid_url m3u8Url = false ->
  setup_error w (index_command (url_text m3u8Url) (Index.outputPath now)) = Some error ->
  let handler := run (Index.convert_m3u8 w now m3u8Url) fs0 in
  let index := run (Index.request w now m3u8Url ticks) fs0 in
  fst handler = Normal tt /\ fst index = Normal tt
  /\ responses (trace (snd handler))
     = [Respond 500 [("success", JBool false);
                     ("message",
                      JString ("Server error setting up conversion: " +:+ error))]]
  /\ responses (trace (snd index)) = responses (trace (snd handler))
  /\ starts (trace (snd index)) = []
  /\ unlinks (trace (snd index)) = []
  /\ fs (snd handler) = fs0
  /\ fs (snd index) = child_fs (Index.outputPath now) ticks fs0.
Proof.
  intros Hurl Hsetup. cbv zeta.
  rewrite (index_setup_failed_run w now m3u8Url fs0 Hurl error Hsetup).
  rewrite (request_setup_failed_run w now m3u8Url fs0 Hurl ticks error Hsetup).
  read_trace.
  repeat apply conj; reflexivity.
Qed.

(** X6 at a set-up that throws, followed by stray events. *)
Lemma X6_witness_setup_throws :
  let w := mkWorld (fun _ files => (None, files)) (fun _ => None)
                   (fun _ => Some "spawn ENOENT") in
  let index :=
    run (Index.request w example_now example_url
           [Emits (EvError "boom" None); Emits EvEnd]) ∅ in
  fst index = Normal tt
  /\ responses (trace (snd index))
     = [Respond 500 [("success", JBool false);
                     ("message",
                      JString "Server error setting up conversion: spawn ENOENT")]]
  /\ starts (trace (snd index)) = []
  /\ unlinks (trace (snd index)) = [].
Proof.
  intros w index.
  destruct (X6_setup_exception w example_now example_url ∅
              [Emits (EvError "boom" None); Emits EvEnd] "spawn ENOENT" eq_refl eq_refl)
    as (_ & H2 & H3 & H4 & H5 & H6 & _).
  split; [exact H2 |]. split; [exact (eq_trans H4 H3) |]. split; [exact H5 | exact H6].
Defined.

(** ** X7: what a failure response gives away *)

(** X7: the failure response of server.js is one fixed body: it is the same
    for every failing command, error message, url, clock value and file
    system. The failure response of index.js carries the message of the
    error and nothing else: not the stderr text, the url, the clock value,
    nor whether a partial file existed or could be deleted. *)
Theorem X7_failure_response_gives_away
        (w w' : World) (dirname dirname' : string) (now now' : Z)
        (m3u8Url m3u8Url' : js_value) (fs0 fs0' : gmap string string)
        (ticks ticks' : list tick) :
  invalid_url m3u8Url = false -> invalid_url m3u8Url' = false ->
  let server := snd (run (Server.convert_m3u8 w dirname now m3u8Url) fs0) in
  let server' := snd (run (Server.convert_m3u8 w' dirname' now' m3u8Url') fs0') in
  let index := snd (run (Index.request w now m3u8Url ticks) fs0) in
  let index' := snd (run (Index.request w' now' m3u8Url' ticks') fs0') in
  (fst (exec_result w (Server.command (url_text m3u8Url)
                                      (Server.outputPath dirname now)) fs0) <> None ->
   fst (exec_result w' (Server.command (url_text m3u8Url')
                                       (Server.outputPath dirname' now')) fs0') <> None ->
   responses (trace server) = responses (trace server'))
  /\ (forall message stderr stderr',
      setup_error w (index_command (url_text m3u8Url) (Index.outputPath now)) = None ->
      setup_error w' (index_command (url_text m3u8Url') (Index.outputPath now')) = None ->
      first_terminal ticks = Some (EvError message stderr) ->
      first_terminal ticks' = Some (EvError message stderr') ->
      responses (trace index) = responses (trace index')
      /\ responses (trace index)
         = [Respond 500 [("success", JBool false);
                         ("message", JString ("FFmpeg conversion failed: " +:+ message))]]).
Proof.
  intros Hurl Hurl'. cbv zeta. split.
  - intros H H'.
    destruct (server_answers w dirname now m3u8Url fs0 Hurl) as [_ ->].
    destruct (server_answers w' dirname' now' m3u8Url' fs0' Hurl') as [_ ->].
    destruct (fst (exec_result w _ fs0)); [| congruence].
    destruct (fst (exec_result w' _ fs0')); [reflexivity | congruence].
  - intros message stderr stderr' Hs Hs' Hf Hf'.
    destruct (index_answers w now m3u8Url fs0 Hurl ticks) as (_ & -> & _).
    destruct (index_answers w' now' m3u8Url' fs0' Hurl' ticks') as (_ & -> & _).
    rewrite Hs, Hs', Hf, Hf'. split; reflexivity.
Qed.

(** X7 at two failing requests that differ in everything but the message. *)
Lemma X7_witness_same_failure_response :
  let w := example_world example_index_path "partial" (Some "Command failed") None in
  let w' := example_world example_index_path "other" (Some "killed") (Some "EPERM") in
  let index :=
    snd (run (Index.request w example_now example_url
                [Writes "partial"; Emits (EvError "boom" (Some "stderr text"))]) ∅) in
  let index' :=
    snd (run (Index.request w' 5 (JString "https://b.example/x.m3u8")
                [Emits (EvError "boom" None)]) ∅) in
  let server :=
    snd (run (Server.convert_m3u8 w example_dirname example_now example_url) ∅) in
  let server' :=
    snd (run (Server.convert_m3u8 w' "/" 5 (JString "https://b.example/x.m3u8")) ∅) in
  responses (trace server) = responses (trace server')
  /\ responses (trace index) = responses (trace index').
Proof.
  intros w w' index index' server server'.
  destruct (X7_failure_response_gives_away
              w w' example_dirname "/" example_now 5 example_url
              (JString "https://b.example/x.m3u8") ∅ ∅
              [Writes "partial"; Emits (EvError "boom" (Some "stderr text"))]
              [Emits (EvError "boom" None)] eq_refl eq_refl) as [H1 H2].
  split.
  - apply H1; discriminate.
  - exact (proj1 (H2 "boom" (Some "stderr text") None eq_refl eq_refl eq_refl eq_refl)).
Defined.

(** ** X10: the answer follows the child *)

(** X10: the outcome that is reported is the outcome of the child. server.js
    answers with a success exactly when [execSync] returned without throwing
    and with a failure exactly when it threw; index.js answers with a
    success exactly when the set-up did not throw and ['end'] was emitted
    before any ['error']. *)
Theorem X10_answer_follows_child
        (w : World) (dirname : string) (now : Z) (m3u8Url : js_value)
        (fs0 : gmap string string) (ticks : list tick) :
  invalid_url m3u8Url = false ->
  let server := snd (run (Server.convert_m3u8 w dirname now m3u8Url) fs0) in
  let index := snd (run (Index.request w now m3u8Url ticks) fs0) in
  let exit :=
    fst (exec_result w (Server.command (url_text m3u8Url)
                                       (Server.outputPath dirname now)) fs0) in
  (existsb is_success (trace server) = true <-> exit = None)
  /\ (existsb is_failure (trace server) = true <-> exit <> None)
  /\ (existsb is_success (trace index) = true
      <-> setup_error w (index_command (url_text m3u8Url) (Index.outputPath now)) = None
          /\ first_terminal ticks = Some EvEnd).
Proof.
  intros Hurl. cbv zeta.
  rewrite (server_run_final w dirname now m3u8Url fs0 Hurl).
  rewrite (index_run_final w now m3u8Url fs0 Hurl). unfold server_final, index_final.
  cbv zeta. split; [| split].
  - destruct (exec_result w _ fs0) as [[error|] fs1];
      cbn [fst snd trace server_prelude]; rewrite !existsb_app.
    + unfold server_cleanup_effects.
      destruct (fs1 !! _); [destruct (unlink_error w _) |]; cbn; split; discriminate.
    + cbn. split; reflexivity.
  - destruct (exec_result w _ fs0) as [[error|] fs1];
      cbn [fst snd trace server_prelude]; rewrite !existsb_app.
    + unfold server_cleanup_effects.
      destruct (fs1 !! _); [destruct (unlink_error w _) |]; cbn; split;
        try reflexivity; discriminate.
    + cbn. split; [discriminate | congruence].
  - assert (Hlogs : forall t, existsb is_success (progress_logs t) = false).
    { intros t. induction t as [|[content|[percent|message stderr|]] t IH]; cbn; auto.
      rewrite existsb_app, IH. unfold progress_log.
      destruct percent as [p|]; [destruct (negb _) |]; reflexivity. }
    destruct (setup_error w _) as [error|].
    + cbn [snd trace]. rewrite !existsb_app, Hlogs. cbn. split; [discriminate |].
      intros [H _]; discriminate.
    + destruct (first_terminal ticks) as [[percent|message stderr|]|] eqn:Hfirst;
        cbn [snd trace]; rewrite !existsb_app, ?Hlogs.
      * now destruct (first_terminal_is_terminal ticks percent).
      * unfold index_cleanup_effects.
        destruct (_ !! _); [destruct (unlink_error w _) |]; cbn;
          (split; [discriminate | intros [_ H]; discriminate]).
      * cbn. rewrite ?orb_true_r. split; [now split | reflexivity].
      * cbn. split; [discriminate | intros [_ H]; discriminate].
Qed.

(** X10 at a child that exits with an error before it reports ['end']. *)
Lemma X10_witness_failed_child :
  let w := example_world example_server_path "partial" (Some "Command failed") None in
  let server :=
    snd (run (Server.convert_m3u8 w example_dirname example_now example_url) ∅) in
  existsb is_failure (trace server) = true
  /\ existsb is_success (trace server) = false.
Proof.
  intros w server.
  destruct (X10_answer_follows_child w example_dirname example_now example_url ∅ []
                                     eq_refl) as (H1 & H2 & _).
  split.
  - apply H2. discriminate.
  - destruct (existsb is_success (trace server)) eqn:E; [| reflexivity].
    apply H1 in E. discriminate.
Defined.

(** ** X8 and X9: names and places of output files *)

(** X8: requests handled at different values of [Date.now()] get different
    file names, different output paths in both variants (whatever
    [__dirname] is) and different download URLs. *)
Theorem X8_distinct_clock_distinct_paths (dirname : string) (a b : Z) :
  a <> b ->
  outputFileName a <> outputFileName b
  /\ Server.outputPath dirname a <> Server.outputPath dirname b
  /\ Index.outputPath a <> Index.outputPath b
  /\ Server.publicDownloadUrl a <> Server.publicDownloadUrl b.
Proof.
  intros Hne. repeat apply conj; intros H; apply Hne.
  - now apply outputFileName_inj.
  - now apply (server_outputPath_inj dirname).
  - now apply index_outputPath_inj.
  - unfold Server.publicDownloadUrl in H.
    apply (inj (String.append "/downloads/")) in H. now apply outputFileName_inj.
Qed.

(** X8 at two consecutive milliseconds. *)
Lemma X8_witness_consecutive_milliseconds :
  Server.outputPath example_dirname 1700000000000
  <> Server.outputPath example_dirname 1700000000001
  /\ Index.outputPath 1700000000000 <> Index.outputPath 1700000000001.
Proof.
  destruct (X8_distinct_clock_distinct_paths example_dirname 1700000000000 1700000000001)
    as (_ & H2 & H3 & _); [discriminate |].
  split; [exact H2 | exact H3].
Defined.

Lemma publicDownloadsDir_normalized (dirname file : string) :
  is_plain file = true ->
  normalize (Server.publicDownloadsDir dirname +:+ String slash file)
  = Server.publicDownloadsDir dirname +:+ String slash file
  /\ Server.publicDownloadsDir dirname <> EmptyString.
Proof.
  intros Hfile. unfold Server.publicDownloadsDir, path_join.
  cbn [List.filter String.eqb negb].
  assert (Hplain : is_plain "downloads" = true) by reflexivity.
  destruct (String.eqb_spec dirname EmptyString) as [->|Hd]; cbn [negb].
  - split; [| discriminate].
    apply (normalize_normalize_slash file "downloads" Hfile Hplain _ ["public"]);
      reflexivity.
  - replace (join_slash [dirname; "public"; "downloads"])
      with ((dirname +:+ "/public") +:+ String slash "downloads")
      by now rewrite append_assoc.
    assert (Hseg : segments ((dirname +:+ "/public") +:+ String slash "downloads")
                   = segments (dirname +:+ "/public") ++ ["downloads"])
      by now rewrite segments_app_slash.
    assert (Hend : ends_with_slash ((dirname +:+ "/public") +:+ String slash "downloads")
                   = false)
      by now rewrite ends_with_slash_append.
    split.
    + now apply (normalize_normalize_slash file "downloads" Hfile Hplain _ _ Hseg).
    + destruct (normalize_last_segment "downloads" Hplain _ _ Hseg Hend) as [->|[x ->]];
        [discriminate |].
      intros E. apply append_eq_nil in E. discriminate.
Qed.

(** X9: the output file lies directly in the directory it is meant for, under
    the generated name: in server.js in the downloads directory that is
    served under [/downloads], whatever [__dirname] is, so that the download
    URL ends with the name of the file written; in index.js in [/tmp]. *)
Theorem X9_output_file_in_its_directory (dirname : string) (now : Z) :
  Server.outputPath dirname now
  = Server.publicDownloadsDir dirname +:+ "/" +:+ outputFileName now
  /\ Index.outputPath now = "/tmp/" +:+ outputFileName now
  /\ basename (Server.outputPath dirname now) = outputFileName now
  /\ basename (Index.outputPath now) = outputFileName now
  /\ Server.publicDownloadUrl now
     = "/downloads/" +:+ basename (Server.outputPath dirname now).
Proof.
  pose proof (outputFileName_plain now) as Hfile.
  destruct (plain_facts _ Hfile) as (Hn & _).
  repeat apply conj.
  - destruct (publicDownloadsDir_normalized dirname _ Hfile) as [Hnorm Hne].
    unfold Server.outputPath, path_join. cbn [List.filter].
    apply String.eqb_neq in Hne. rewrite Hne, Hn. cbn [negb].
    exact Hnorm.
  - unfold Index.outputPath, Index.outputDir, path_join. cbn [List.filter String.eqb negb].
    rewrite Hn. cbn [negb].
    change (join_slash ["/tmp"; outputFileName now])
      with (normalize "/tmp" +:+ String slash (outputFileName now)).
    assert (Hplain : is_plain "tmp" = true) by reflexivity.
    now apply (normalize_normalize_slash _ "tmp" Hfile Hplain "/tmp" [EmptyString]).
  - apply server_basename_outputPath.
  - apply index_basename_outputPath.
  - now rewrite server_basename_outputPath.
Qed.

(** ** X11: the words of the invocation *)


